(** * Video-Analyzer: [app/processor.py]

    A shallow embedding of [process_video] and the properties of its frame
    loop, its movement metrics and its resource handling.

    Python floats (and numpy's float64) are IEEE-754 binary64 numbers: they are
    modelled by Rocq's primitive floats, which are the same format with the
    same rounding.  Python ints are unbounded: counters are [nat], and values
    that may be negative are [Z]. *)

From Stdlib Require Import ZArith List Bool Lia String.
From Stdlib Require Import PrimFloat SpecFloat FloatOps FloatAxioms.
From Stdlib Require Uint63.
Import ListNotations.

Set Implicit Arguments.

(** ** Python values, exceptions and truthiness *)
Module Py.

(** The exceptions [process_video] raises itself, the [OverflowError] of
    [float] on an int beyond the range of a float, the two numpy raises on
    an ill-shaped array, and [Foreign] for anything raised inside cv2 or
    mediapipe.  The path interpolated into the first two messages is left
    out. *)
Inductive exn : Type :=
| FileNotFoundError
| IOError (msg : string)
| OverflowError
| IndexError
| AxisError
| Foreign (what : string).

Inductive result (A : Type) : Type :=
| Return (a : A)
| Raise (e : exn).
Arguments Raise {A} e.

Definition bind {A B : Type} (c : result A) (k : A -> result B) : result B :=
  match c with
  | Return a => k a
  | Raise e => Raise e
  end.

(** An argument that may be given as an int or as a float
    ([target_fps=10] in the test, a float in general). *)
Inductive number : Type :=
| Int (z : Z)
| Float (f : float).

(** An int rounded to the nearest binary64; beyond the largest float the
    rounding gives an infinity. *)
Definition float_of_Z (z : Z) : float :=
  SF2Prim (binary_normalize 53 1024 z 0 false).

(** The float [float(n)] is when it returns. *)
Definition float_value (n : number) : float :=
  match n with
  | Int z => float_of_Z z
  | Float f => f
  end.

(** [float(n)]: a float is returned as it is; an int is rounded to the
    nearest float, and raises [OverflowError] when it is too large for
    one. *)
Definition to_float (n : number) : result float :=
  match n with
  | Int z =>
      if is_infinity (float_of_Z z) then Raise OverflowError
      else Return (float_of_Z z)
  | Float f => Return f
  end.

(** [bool(n)]: a number is falsy exactly when it compares equal to zero;
    a NaN and a negative number are truthy. *)
Definition float_truthy (f : float) : bool := negb (f =? 0)%float.

Definition truthy (n : number) : bool :=
  match n with
  | Int z => negb (z =? 0)%Z
  | Float f => float_truthy f
  end.

(** [x or d] on floats. *)
Definition float_or (x d : float) : float :=
  if float_truthy x then x else d.

(** [x or d] on ints. *)
Definition int_or (x d : Z) : Z :=
  if (x =? 0)%Z then d else x.

End Py.
Import Py.

Declare Scope py_scope.
Delimit Scope py_scope with py.
Notation "x <- c ;; k" := (bind c (fun x => k))
  (at level 61, c at next level, right associativity) : py_scope.
Open Scope py_scope.

(** ** The numpy operations of the loop body *)
Module Np.

(** [np.array([(lm.x, lm.y) for lm in ...])]: one row per landmark. *)
Definition Landmarks : Type := list (float * float).

(** [a.shape]: [(L, 2)] for [L] rows, but [(0,)] for an empty list, which
    numpy reads as a one-dimensional array. *)
Definition shape (a : Landmarks) : list nat :=
  match a with
  | [] => [0%nat]
  | _ :: _ => [List.length a; 2%nat]
  end.

Fixpoint shape_eqb (s t : list nat) : bool :=
  match s, t with
  | [], [] => true
  | m :: s', n :: t' => Nat.eqb m n && shape_eqb s' t'
  | _, _ => false
  end.

(** [a - b] for two arrays of the same shape. *)
Definition sub (a b : Landmarks) : Landmarks :=
  map (fun p => (fst (fst p) - fst (snd p), snd (fst p) - snd (snd p))%float)
      (combine a b).

(** The L2 norm of one row. *)
Definition norm2 (row : float * float) : float :=
  sqrt (fst row * fst row + snd row * snd row)%float.

(** [np.linalg.norm(a, axis=1)]: the norm of every row; axis 1 does not
    exist in the one-dimensional empty array. *)
Definition linalg_norm_axis1 (a : Landmarks) : result (list float) :=
  match a with
  | [] => Raise AxisError
  | _ :: _ => Return (map norm2 a)
  end.

(** [d[idx]] with a list of indices: every index must be in range. *)
Fixpoint take (d : list float) (idx : list nat) : result (list float) :=
  match idx with
  | [] => Return []
  | i :: idx' =>
      match nth_error d i with
      | None => Raise IndexError
      | Some x => xs <- take d idx' ;; Return (x :: xs)
      end
  end.

(** The two reductions whose result depends on the numpy build: the order
    in which [.sum()] adds its elements, and the decimal rounding of
    [round(x, 5)] on a float64. *)
Class Kernels : Type := {
  np_sum : list float -> float;
  round5 : float -> float
}.

End Np.
Import Np.

(** ** The outside world of one call *)

(** The three scoped resources of a call. *)
Inductive handle : Type := Capture | Writer | PoseSession.

Definition handle_eqb (a b : handle) : bool :=
  match a, b with
  | Capture, Capture | Writer, Writer | PoseSession, PoseSession => true
  | _, _ => false
  end.

(** A frame as it reaches the output stream: the text burnt into it
    ([Frame: frame_idx/input_frame_count]) and the skeleton drawn on it, if
    a pose was found. *)
Record OutFrame : Type := {
  label : nat * Z;
  overlay : option Landmarks
}.

(** The file the encoder produces: the frame rate and frame size given to
    [cv2.VideoWriter], and the frames written so far. *)
Record OutVideo : Type := {
  out_fps_meta : float;
  out_size : Z * Z;
  out_frames : list OutFrame
}.

(** What a call can change: the file at [output_path] ([None]: no such
    file) and the handles it holds at the moment.  [cap], [writer] and [pose]
    are locals of the call, so a call starts with no handle. *)
Record World : Type := {
  output_file : option OutVideo;
  live : list handle
}.

Definition acquire (h : handle) (w : World) : World :=
  {| output_file := output_file w; live := h :: live w |}.

Definition release (h : handle) (w : World) : World :=
  {| output_file := output_file w;
     live := filter (fun k => negb (handle_eqb h k)) (live w) |}.

(** [cv2.VideoWriter(output_path, fourcc, out_fps, (width, height))] that
    opens: the file is created, or truncated if it was there. *)
Definition create_output (fps : float) (size : Z * Z) (w : World) : World :=
  {| output_file :=
       Some {| out_fps_meta := fps; out_size := size; out_frames := [] |};
     live := live w |}.

(** [writer.write(frame)]. *)
Definition write_frame (f : OutFrame) (w : World) : World :=
  {| output_file :=
       option_map
         (fun v => {| out_fps_meta := out_fps_meta v; out_size := out_size v;
                      out_frames := out_frames v ++ [f] |})
         (output_file w);
     live := live w |}.

(** One turn of the loop as the collaborators script it: [cap.read()]
    raises, or it hands out a frame, on which [pose.process] returns a pose
    ([Some]), no pose ([None]) or raises, and on which the annotate-and-write
    step returns or raises.  The end of the list is the read that returns
    [ret = False]. *)
Inductive frame_event : Type :=
| ReadRaises (e : exn)
| Frame (pose : result (option Landmarks)) (sink : result unit).

(** An input the decoder opens: the properties [cap.get] reports (0 when a
    property cannot be read) and the frames. *)
Record Video : Type := {
  CAP_PROP_FPS : float;
  CAP_PROP_FRAME_WIDTH : Z;
  CAP_PROP_FRAME_HEIGHT : Z;
  CAP_PROP_FRAME_COUNT : Z;
  frames : list frame_event
}.

(** What [input_path] refers to. *)
Inductive path_state : Type :=
| Missing                 (* nothing at the path *)
| Directory               (* a directory, not a file *)
| Unreadable              (* a regular file the process may not read *)
| Undecodable             (* a readable file that is no video *)
| Playable (v : Video).

(** [os.path.isfile]: the path exists and is a regular file; it asks for no
    read permission. *)
Definition isfile (p : path_state) : bool :=
  match p with
  | Missing | Directory => false
  | Unreadable | Undecodable | Playable _ => true
  end.

(** [cv2.VideoCapture(input_path)] followed by [cap.isOpened()]: the video
    when the decoder opened it. *)
Definition VideoCapture (p : path_state) : option Video :=
  match p with
  | Playable v => Some v
  | _ => None
  end.

Record Env : Type := {
  input : path_state;
  output_before : option OutVideo;          (* the file at [output_path] *)
  writer_opens : float -> bool;   (* [writer.isOpened()], for the frame
                                     rate given to [cv2.VideoWriter] *)
  estimator : option exn          (* what [mp_pose.Pose(...)] raises, if
                                     it does *)
}.

(** ** The locals of the frame loop *)
Record Locals : Type := {
  frames_with_pose : nat;                  (* metrics["frames_with_pose"] *)
  prev_landmarks : option Landmarks;
  movement_accumulator : float;
  total_points : nat;
  left_movement : float;
  right_movement : float;
  frame_idx : nat;
  written : nat
}.

Definition init_locals : Locals :=
  {| frames_with_pose := 0; prev_landmarks := None;
     movement_accumulator := 0%float; total_points := 0;
     left_movement := 0%float; right_movement := 0%float;
     frame_idx := 0; written := 0 |}.

Definition left_idx : list nat := [11; 13; 15; 23; 25; 27]%nat.
Definition right_idx : list nat := [12; 14; 16; 24; 26; 28]%nat.

Record Metrics : Type := {
  frames_processed : nat;
  m_frames_with_pose : nat;
  avg_movement_intensity : float;
  dominant_limb : option string
}.

(** ** [process_video] *)
Section Processor.

Context {K : Kernels}.

(** Lines 106-113: the body of the comparison with the previous frame. *)
Definition accumulate (st : Locals) (landmarks prev : Landmarks)
  : result Locals :=
  diff <- linalg_norm_axis1 (sub landmarks prev) ;;
  let acc := (movement_accumulator st + np_sum diff)%float in
  let pts := (total_points st + List.length diff)%nat in
  l <- take diff left_idx ;;
  let lm := (left_movement st + np_sum l)%float in
  r <- take diff right_idx ;;
  let rm := (right_movement st + np_sum r)%float in
  Return {| frames_with_pose := frames_with_pose st;
            prev_landmarks := prev_landmarks st;
            movement_accumulator := acc; total_points := pts;
            left_movement := lm; right_movement := rm;
            frame_idx := frame_idx st; written := written st |}.

(** Line 105: [prev_landmarks is not None and
    landmarks.shape == prev_landmarks.shape]. *)
Definition comparable (prev : option Landmarks) (landmarks : Landmarks)
  : option Landmarks :=
  match prev with
  | Some p => if shape_eqb (shape landmarks) (shape p) then Some p else None
  | None => None
  end.

(** Lines 94-115: the branch taken when a pose was detected. *)
Definition on_pose (st : Locals) (landmarks : Landmarks) : result Locals :=
  let st1 :=
    {| frames_with_pose := S (frames_with_pose st);
       prev_landmarks := prev_landmarks st;
       movement_accumulator := movement_accumulator st;
       total_points := total_points st;
       left_movement := left_movement st;
       right_movement := right_movement st;
       frame_idx := frame_idx st; written := written st |} in
  st2 <- match comparable (prev_landmarks st1) landmarks with
         | Some prev => accumulate st1 landmarks prev
         | None => Return st1
         end ;;
  Return {| frames_with_pose := frames_with_pose st2;
            prev_landmarks := Some landmarks;
            movement_accumulator := movement_accumulator st2;
            total_points := total_points st2;
            left_movement := left_movement st2;
            right_movement := right_movement st2;
            frame_idx := frame_idx st2; written := written st2 |}.

(** Line 122: [written += 1]. *)
Definition count_written (st : Locals) : Locals :=
  {| frames_with_pose := frames_with_pose st;
     prev_landmarks := prev_landmarks st;
     movement_accumulator := movement_accumulator st;
     total_points := total_points st;
     left_movement := left_movement st;
     right_movement := right_movement st;
     frame_idx := frame_idx st; written := S (written st) |}.

(** Lines 90-122: one frame, from the colour conversion to the write. *)
Definition process_frame (input_frame_count : Z)
    (pose : result (option Landmarks)) (sink : result unit)
    (st : Locals) (w : World) : World * result Locals :=
  match pose with
  | Raise e => (w, Raise e)
  | Return results =>
      match (match results with
             | Some landmarks => on_pose st landmarks
             | None => Return st
             end) with
      | Raise e => (w, Raise e)
      | Return st1 =>
          match sink with
          | Raise e => (w, Raise e)
          | Return _ =>
              (write_frame {| label := (frame_idx st1, input_frame_count);
                              overlay := results |} w,
               Return (count_written st1))
          end
      end
  end.

(** Line 87: [max_frames and frame_idx > max_frames]. *)
Definition over_cap (max_frames : option Z) (idx : nat) : bool :=
  match max_frames with
  | Some m => negb (m =? 0)%Z && (m <? Z.of_nat idx)%Z
  | None => false
  end.

(** Line 86: [frame_idx += 1]. *)
Definition next_frame (st : Locals) : Locals :=
  {| frames_with_pose := frames_with_pose st;
     prev_landmarks := prev_landmarks st;
     movement_accumulator := movement_accumulator st;
     total_points := total_points st;
     left_movement := left_movement st;
     right_movement := right_movement st;
     frame_idx := S (frame_idx st); written := written st |}.

(** Lines 82-122: the [while True] loop, by recursion on what the decoder
    still has to give. *)
Fixpoint frame_loop (max_frames : option Z) (input_frame_count : Z)
    (stream : list frame_event) (st : Locals) (w : World)
  : World * result Locals :=
  match stream with
  | [] => (w, Return st)
  | ReadRaises e :: _ => (w, Raise e)
  | Frame pose sink :: rest =>
      let st1 := next_frame st in
      if over_cap max_frames (frame_idx st1) then (w, Return st1)
      else
        match process_frame input_frame_count pose sink st1 w with
        | (w1, Return st2) =>
            frame_loop max_frames input_frame_count rest st2 w1
        | (w1, Raise e) => (w1, Raise e)
        end
  end.

(** Lines 129-133. *)
Definition finalize (st : Locals) : Metrics :=
  if (0 <? total_points st)%nat then
    {| frames_processed := written st;
       m_frames_with_pose := frames_with_pose st;
       avg_movement_intensity :=
         round5 (movement_accumulator st
                 / float_of_Z (Z.of_nat (total_points st)))%float;
       dominant_limb :=
         Some (if (right_movement st <? left_movement st)%float
               then "left"%string else "right"%string) |}
  else
    {| frames_processed := written st;
       m_frames_with_pose := frames_with_pose st;
       avg_movement_intensity := 0%float;
       dominant_limb := None |}.

(** The [finally] block. *)
Definition cleanup (w : World) : World :=
  release Capture (release Writer (release PoseSession w)).

Definition Returned : Type := nat * float * option Metrics.

(** Line 52: [float(target_fps) if target_fps else in_fps]. *)
Definition choose_fps (target_fps : option number) (in_fps : float)
  : result float :=
  match target_fps with
  | Some t => if truthy t then to_float t else Return in_fps
  | None => Return in_fps
  end.

(** The [try] starts at line 81: what raises before it, at line 52 or in
    the constructor of the estimator at lines 62-64, leaves the handles
    opened so far as they are. *)
Definition process_video (env : Env) (target_fps : option number)
    (max_frames : option Z) (return_metrics : bool)
  : World * result Returned :=
  let w0 := {| output_file := output_before env; live := [] |} in
  if negb (isfile (input env)) then (w0, Raise FileNotFoundError)
  else
    match VideoCapture (input env) with
    | None => (w0, Raise (IOError "Cannot open video"))
    | Some cap =>
        let w1 := acquire Capture w0 in
        let in_fps := float_or (CAP_PROP_FPS cap) 30 in
        let width := int_or (CAP_PROP_FRAME_WIDTH cap) 640 in
        let height := int_or (CAP_PROP_FRAME_HEIGHT cap) 480 in
        let input_frame_count := int_or (CAP_PROP_FRAME_COUNT cap) 0 in
        match choose_fps target_fps in_fps with
        | Raise e => (w1, Raise e)
        | Return out_fps =>
            if negb (writer_opens env out_fps) then
              (release Capture w1,
               Raise (IOError "Could not open VideoWriter - check codecs and container environment"))
            else
              let w2 :=
                acquire Writer (create_output out_fps (width, height) w1) in
              match estimator env with
              | Some e => (w2, Raise e)
              | None =>
                  let w3 := acquire PoseSession w2 in
                  let (w4, r) :=
                    frame_loop max_frames input_frame_count (frames cap)
                               init_locals w3 in
                  let w5 := cleanup w4 in
                  match r with
                  | Raise e => (w5, Raise e)
                  | Return st =>
                      let metrics := finalize st in
                      (w5, Return (written st, out_fps,
                                   if return_metrics then Some metrics
                                   else None))
                  end
              end
        end
    end.

End Processor.

(** ** Reference kernels

    A build of numpy to run the model on: [.sum()] adds from left to right
    starting at zero (what numpy does below eight elements), and
    [round(x, 5)] scales by [1e5], rounds to the nearest integer (ties to
    even) and scales back. *)
Module Reference.

Definition sum_left (l : list float) : float :=
  fold_left PrimFloat.add l 0%float.

Definition two52 : float := 4503599627370496%float.

(** [rint]: below [2^52] in magnitude, adding and removing [2^52] rounds to
    an integer; above, every binary64 is an integer already. *)
Definition rint (y : float) : float :=
  if (PrimFloat.abs y <? two52)%float then
    if (y <? 0)%float then (y - two52 + two52)%float
    else (y + two52 - two52)%float
  else y.

Definition round_5 (x : float) : float :=
  (rint (x * 100000) / 100000)%float.

#[export] Instance kernels : Kernels :=
  {| np_sum := sum_left; round5 := round_5 |}.

End Reference.

(** ** What the claims speak about *)

(** The number of landmarks of a pose. *)
Definition landmark_count (lm : Landmarks) : nat := List.length lm.

(** An event on which nothing raises: the frame is read, inference returns,
    the frame is written, and a detected pose has every index of [left_idx]
    and [right_idx] (so at least 29 landmarks, as MediaPipe's 33). *)
Definition benign (ev : frame_event) : bool :=
  match ev with
  | Frame (Return None) (Return _) => true
  | Frame (Return (Some lm)) (Return _) => (28 <? landmark_count lm)%nat
  | _ => false
  end.

(** The number of frames, among those the loop processes, on which the
    comparison with the previous pose is made: the frames that accumulate
    displacement.  [prev] is the last detected pose and [idx] the number of
    frames read before. *)
Fixpoint comparisons (max_frames : option Z) (stream : list frame_event)
    (prev : option Landmarks) (idx : nat) : nat :=
  match stream with
  | Frame (Return results) _ :: rest =>
      if over_cap max_frames (S idx) then 0%nat
      else
        match results with
        | Some lm =>
            (match comparable prev lm with Some _ => 1 | None => 0 end
             + comparisons max_frames rest (Some lm) (S idx))%nat
        | None => comparisons max_frames rest prev (S idx)
        end
  | _ => 0%nat
  end.

(** [input_path] references an existing file that the process can read. *)
Definition existing_readable (p : path_state) : bool :=
  match p with
  | Undecodable | Playable _ => true
  | Missing | Directory | Unreadable => false
  end.

(** [target_fps] is provided and greater than zero. *)
Definition is_positive (n : number) : bool :=
  match n with
  | Int z => (0 <? z)%Z
  | Float f => (0 <? f)%float
  end.

(** The source's reported frame rate, 30.0 when it reports zero. *)
Definition source_rate (cap : Video) : float :=
  float_or (CAP_PROP_FPS cap) 30.

(** The output frame rate as the specification words it. *)
Definition spec_out_fps (target_fps : option number) (cap : Video) : float :=
  match target_fps with
  | Some t => if is_positive t then float_value t else source_rate cap
  | None => source_rate cap
  end.

(** The frame rate line 52 gives when [float] returns. *)
Definition chosen_rate (target_fps : option number) (in_fps : float) : float :=
  match target_fps with
  | Some t => if truthy t then float_value t else in_fps
  | None => in_fps
  end.

(** cv2's encoders refuse a frame rate that is not greater than zero: the
    writer opens at positive rates only. *)
Definition positive_rates_only (env : Env) : Prop :=
  forall f, writer_opens env f = true -> (0 <? f)%float = true.

(** The sign a rounding keeps: a specification float that is a NaN or has
    the sign [sx]. *)
Definition signed (sx : bool) (r : spec_float) : Prop :=
  match r with
  | S754_zero s | S754_infinity s | S754_finite s _ _ => s = sx
  | S754_nan => True
  end.

(** The number of landmarks of MediaPipe's pose model, the constant [L] of
    the estimator that line 62 creates; [left_idx] and [right_idx] are
    indexes into it. *)
Definition POSE_LANDMARKS : nat := 33.

(** A pose as the estimator reports it. *)
Definition estimator_pose (landmarks : Landmarks) : Prop :=
  landmark_count landmarks = POSE_LANDMARKS.

(** The distances of a comparison, [np.linalg.norm(landmarks -
    prev_landmarks, axis=1)]: one per landmark. *)
Definition distances (landmarks prev : Landmarks) : list float :=
  map norm2 (sub landmarks prev).

(** The Euclidean distance between two keypoints. *)
Definition euclid (p q : float * float) : float :=
  sqrt ((fst p - fst q) * (fst p - fst q)
        + (snd p - snd q) * (snd p - snd q))%float.

(** The world in which the loop starts, once the decoder and the encoder
    are open and the estimator is created. *)
Definition at_loop_entry (env : Env) (cap : Video)
    (target_fps : option number) : World :=
  acquire PoseSession
    (acquire Writer
       (create_output
          (chosen_rate target_fps (float_or (CAP_PROP_FPS cap) 30))
          (int_or (CAP_PROP_FRAME_WIDTH cap) 640,
           int_or (CAP_PROP_FRAME_HEIGHT cap) 480)
          (acquire Capture
             {| output_file := output_before env; live := [] |}))).

(** The frame loop of a call, from its first frame. *)
Definition run_loop {K : Kernels} (env : Env) (cap : Video)
    (target_fps : option number) (max_frames : option Z)
  : World * result Locals :=
  frame_loop max_frames (int_or (CAP_PROP_FRAME_COUNT cap) 0) (frames cap)
             init_locals (at_loop_entry env cap target_fps).

(** The frame rate a call returns, if it returns. *)
Definition returned_fps (out : World * result Returned) : option float :=
  match snd out with
  | Return (_, fps, _) => Some fps
  | Raise _ => None
  end.

(** The exception a call raises, if it raises. *)
Definition raised (out : World * result Returned) : option exn :=
  match snd out with
  | Return _ => None
  | Raise e => Some e
  end.

(** ** Sample inputs *)
Module Demo.

(** A pose of 33 landmarks on a diagonal, shifted by [t]. *)
Definition pose_at (t : float) : Landmarks :=
  map (fun i => (float_of_Z (Z.of_nat i) / 64 + t, 0.5 - t)%float)
      (seq 0 33).

Definition seen (p : option Landmarks) : frame_event :=
  Frame (Return p) (Return tt).

(** Frame [i] of the clip: a pose that drifts, lost on every fourth
    frame. *)
Definition frame_at (i : nat) : frame_event :=
  if (i mod 4 =? 3)%nat then seen None
  else seen (Some (pose_at (float_of_Z (Z.of_nat i) / 128))).

(** The clip of the test: 15 frames at 10 fps, 160 by 120. *)
Definition clip : Video :=
  {| CAP_PROP_FPS := 10; CAP_PROP_FRAME_WIDTH := 160;
     CAP_PROP_FRAME_HEIGHT := 120; CAP_PROP_FRAME_COUNT := 15;
     frames := map frame_at (seq 0 15) |}.

Definition env : Env :=
  {| input := Playable clip; output_before := None;
     writer_opens := fun f => (0 <? f)%float; estimator := None |}.

(** A scripted estimator that reports two landmarks only. *)
Definition short_pose : Landmarks := [(0.5, 0.5); (0.25, 0.75)]%float.

Definition short_clip : Video :=
  {| CAP_PROP_FPS := 10; CAP_PROP_FRAME_WIDTH := 160;
     CAP_PROP_FRAME_HEIGHT := 120; CAP_PROP_FRAME_COUNT := 2;
     frames := [seen (Some short_pose); seen (Some short_pose)] |}.

Definition short_env : Env :=
  {| input := Playable short_clip; output_before := None;
     writer_opens := fun f => (0 <? f)%float; estimator := None |}.

(** A file that exists but that the process may not read. *)
Definition locked_env : Env :=
  {| input := Unreadable; output_before := None;
     writer_opens := fun f => (0 <? f)%float; estimator := None |}.

Definition missing_env : Env :=
  {| input := Missing; output_before := None;
     writer_opens := fun f => (0 <? f)%float; estimator := None |}.

(** The locals after a first frame with [short_pose]. *)
Definition after_short : Locals :=
  {| frames_with_pose := 1; prev_landmarks := Some short_pose;
     movement_accumulator := 0%float; total_points := 0;
     left_movement := 0%float; right_movement := 0%float;
     frame_idx := 1; written := 1 |}.

(** The locals after a first frame with the pose [pose_at 0]. *)
Definition after_first : Locals :=
  {| frames_with_pose := 1; prev_landmarks := Some (pose_at 0);
     movement_accumulator := 0%float; total_points := 0;
     left_movement := 0%float; right_movement := 0%float;
     frame_idx := 1; written := 1 |}.

End Demo.

(** ** What the output file and the counters are made of *)

(** The pose the estimator reported on a frame, if it reported one. *)
Definition detected (ev : frame_event) : option Landmarks :=
  match ev with
  | Frame (Return (Some landmarks)) _ => Some landmarks
  | _ => None
  end.

Definition has_pose (ev : frame_event) : bool :=
  match detected ev with
  | Some _ => true
  | None => false
  end.

(** The frames written for the events [evs], the first of which is frame
    number [i + 1] of the source: each carries its number over
    [input_frame_count] and the skeleton of its pose. *)
Fixpoint annotate_from (input_frame_count : Z) (i : nat)
    (evs : list frame_event) : list OutFrame :=
  match evs with
  | [] => []
  | ev :: rest =>
      {| label := (S i, input_frame_count); overlay := detected ev |}
      :: annotate_from input_frame_count (S i) rest
  end.

(** The exception an event raises whatever the locals are: a read that
    raises, an inference that raises, or a write that raises on a frame whose
    pose, if any, has every index of [left_idx] and [right_idx]. *)
Definition faulty (ev : frame_event) : option exn :=
  match ev with
  | ReadRaises e => Some e
  | Frame (Raise e) _ => Some e
  | Frame (Return None) (Raise e) => Some e
  | Frame (Return (Some landmarks)) (Raise e) =>
      if (28 <? landmark_count landmarks)%nat then Some e else None
  | Frame (Return _) (Return _) => None
  end.

(** What [process_video] leaves in [metrics] when nothing was compared. *)
Definition still_metrics (n poses : nat) : Metrics :=
  {| frames_processed := n; m_frames_with_pose := poses;
     avg_movement_intensity := 0%float; dominant_limb := None |}.

(** ** More sample inputs *)
Module Samples.

(** Three frames, a pose on the second only. *)
Definition lonely_clip : Video :=
  {| CAP_PROP_FPS := 25; CAP_PROP_FRAME_WIDTH := 0;
     CAP_PROP_FRAME_HEIGHT := 0; CAP_PROP_FRAME_COUNT := 3;
     frames := [Demo.seen None; Demo.seen (Some (Demo.pose_at 0));
                Demo.seen None] |}.

Definition lonely_env : Env :=
  {| input := Playable lonely_clip; output_before := None;
     writer_opens := fun f => (0 <? f)%float; estimator := None |}.

(** Four frames of which the decoder cannot read the third. *)
Definition broken_clip : Video :=
  {| CAP_PROP_FPS := 25; CAP_PROP_FRAME_WIDTH := 320;
     CAP_PROP_FRAME_HEIGHT := 240; CAP_PROP_FRAME_COUNT := 4;
     frames := [Demo.seen (Some (Demo.pose_at 0)); Demo.seen None;
                ReadRaises (Foreign "decode"); Demo.seen None] |}.

Definition broken_env : Env :=
  {| input := Playable broken_clip; output_before := None;
     writer_opens := fun f => (0 <? f)%float; estimator := None |}.

End Samples.

(** ** [app/api.py]: the upload and download endpoints *)
Module Api.

(** What the framework decides: the lower-cased suffix of the uploaded
    file name, [Path(file.filename).suffix.lower()], and whether building the
    [JSONResponse] raises on the metrics (as it does on a float that JSON
    cannot carry). *)
Class Web : Type := {
  suffix_lower : string -> string;
  json_render : Metrics -> option exn
}.

Definition ALLOWED_EXT : list string :=
  [".mp4"; ".mov"; ".avi"; ".mkv"; ".webm"]%string.

(** [ext in ALLOWED_EXT]. *)
Definition allowed (ext : string) : bool :=
  existsb (String.eqb ext) ALLOWED_EXT.

(** A file of [TMP_DIR]: an upload, with the video its bytes decode to if
    they do, or a video written by [process_video]. *)
Inductive entry : Type :=
| Uploaded (decodes : option Video)
| Encoded (v : OutVideo).

(** [TMP_DIR], by file name. *)
Definition Store : Type := string -> option entry.

Definition put (path : string) (f : entry) (store : Store) : Store :=
  fun p => if String.eqb p path then Some f else store p.

Definition unlink (path : string) (store : Store) : Store :=
  fun p => if String.eqb p path then None else store p.

(** [path.exists()]. *)
Definition path_exists (path : string) (store : Store) : bool :=
  match store path with
  | Some _ => true
  | None => false
  end.

(** [open(in_path, "wb")] and [shutil.copyfileobj]: the copy completes, or
    raises, before or after the file was created. *)
Inductive transfer : Type :=
| Copied
| CopyRaises (created : bool) (e : exn).

Record UploadFile : Type := {
  filename : string;
  body : option Video;       (* what the uploaded bytes decode to *)
  copy : transfer
}.

(** The machine the service runs on: whether the encoder opens, what the
    constructor of the estimator raises if it does, and whether the upload
    can be unlinked. *)
Record Host : Type := {
  encoder_opens : bool;
  estimator_raises : option exn;
  unlink_succeeds : bool
}.

Inductive detail : Type :=
| Unsupported (ext : string)     (* "Unsupported file type: {ext}" *)
| NoOutput                       (* "Processing produced no output." *)
| Internal (e : exn)             (* "Internal processing error: {e}" *)
| NotFound.                      (* "File not found." *)

(** The response headers, before [str] is applied to each value. *)
Record Headers : Type := {
  X_Frames_Processed : nat;
  X_Frames_With_Pose : nat;
  X_Avg_Movement_Intensity : float;
  X_Dominant_Limb : option string
}.

Inductive response : Type :=
| JSONResponse (message output_video : string) (metrics : Metrics)
               (headers : Headers)
| FileResponse (path : string) (content : entry) (download_name : string)
| HTTPException (status_code : nat) (d : detail).

Definition status (r : response) : nat :=
  match r with
  | JSONResponse _ _ _ _ | FileResponse _ _ _ => 200%nat
  | HTTPException code _ => code
  end.

Definition in_path (unique ext : string) : string :=
  (unique ++ "_input" ++ ext)%string.

Definition out_path (unique : string) : string :=
  (unique ++ "_output.mp4")%string.

(** What [process_video] finds at the two paths once the upload is
    saved. *)
Definition env_of (host : Host) (file : UploadFile) (unique : string)
    (store : Store) : Env :=
  {| input := match body file with
              | Some v => Playable v
              | None => Undecodable
              end;
     output_before := match store (out_path unique) with
                      | Some (Encoded v) => Some v
                      | _ => None
                      end;
     writer_opens := fun _ => encoder_opens host;
     estimator := estimator_raises host |}.

(** The file [process_video] leaves at [out_path]. *)
Definition sync (unique : string) (w : World) (store : Store) : Store :=
  match output_file w with
  | Some v => put (out_path unique) (Encoded v) store
  | None => store
  end.

(** Lines 42-69: the call to [process_video] and the response built from
    what it returns. *)
Definition respond {W : Web} {K : Kernels} (host : Host) (file : UploadFile)
    (unique : string) (store : Store) : Store * response :=
  match process_video (env_of host file unique store)
                      None (Some 300%Z) true with
  | (w, Raise e) => (sync unique w store, HTTPException 500 (Internal e))
  | (w, Return (frames_written, _, om)) =>
      let store1 := sync unique w store in
      if (frames_written =? 0)%nat
         || negb (path_exists (out_path unique) store1)
      then (store1, HTTPException 500 NoOutput)
      else
        match om with
        | None => (store1, HTTPException 500 (Internal (Foreign "ValueError")))
        | Some metrics =>
            match json_render metrics with
            | Some e => (store1, HTTPException 500 (Internal e))
            | None =>
                (store1,
                 JSONResponse "Processing complete."
                   ("/download/" ++ unique)%string metrics
                   {| X_Frames_Processed := frames_processed metrics;
                      X_Frames_With_Pose := m_frames_with_pose metrics;
                      X_Avg_Movement_Intensity :=
                        avg_movement_intensity metrics;
                      X_Dominant_Limb := dominant_limb metrics |})
            end
        end
  end.

(** Lines 75-85: the [finally] block; a failure to unlink is swallowed. *)
Definition tidy (host : Host) (path : string) (store : Store) : Store :=
  if path_exists path store && unlink_succeeds host then unlink path store
  else store.

(** [POST /analyze]; [unique] is the [uuid4().hex] drawn for the request. *)
Definition analyze_video {W : Web} {K : Kernels} (host : Host)
    (file : UploadFile) (unique : string) (store : Store)
  : Store * response :=
  let ext := suffix_lower (filename file) in
  if negb (allowed ext) then (store, HTTPException 415 (Unsupported ext))
  else
    let inp := in_path unique ext in
    let (store1, r) :=
      match copy file with
      | CopyRaises created e =>
          ((if created then put inp (Uploaded None) store else store),
           HTTPException 500 (Internal e))
      | Copied => respond host file unique (put inp (Uploaded (body file)) store)
      end in
    (tidy host inp store1, r).

(** [GET /download/{file_id}]. *)
Definition download_video (file_id : string) (store : Store) : response :=
  match store (out_path file_id) with
  | None => HTTPException 404 NotFound
  | Some f =>
      FileResponse (out_path file_id) f (file_id ++ "_skeleton.mp4")%string
  end.

(** A framework for the samples: the suffix is what follows the last dot
    of an all-lower-case name without directories, and every metrics record
    renders. *)
Fixpoint last_dot (name : string) : option string :=
  match name with
  | EmptyString => None
  | String c rest =>
      match last_dot rest with
      | Some suffix => Some suffix
      | None => if Ascii.eqb c (Ascii.ascii_of_nat 46) then Some name else None
      end
  end.

Definition sample_web : Web :=
  {| suffix_lower := fun name => match last_dot name with
                                 | Some suffix => suffix
                                 | None => EmptyString
                                 end;
     json_render := fun _ => None |}.

Definition sample_host : Host :=
  {| encoder_opens := true; estimator_raises := None;
     unlink_succeeds := true |}.

Definition empty_store : Store := fun _ => None.

Definition dance_upload : UploadFile :=
  {| filename := "dance.mp4"; body := Some Demo.clip; copy := Copied |}.

Definition notes_upload : UploadFile :=
  {| filename := "notes.txt"; body := None; copy := Copied |}.

(** A well-formed container without a single frame. *)
Definition blank_clip : Video :=
  {| CAP_PROP_FPS := 30; CAP_PROP_FRAME_WIDTH := 64;
     CAP_PROP_FRAME_HEIGHT := 48; CAP_PROP_FRAME_COUNT := 0;
     frames := [] |}.

Definition blank_upload : UploadFile :=
  {| filename := "blank.mov"; body := Some blank_clip; copy := Copied |}.

End Api.

(** ** Proof automation *)

(** Splits one unfolding of [frame_loop] on an event [Frame pose sink] into
    its three ways out: the cap is exceeded, the frame is processed and the
    loop goes on, or the frame raises. *)
Ltac loop_cases Hcap Hframe :=
  cbn [frame_loop];
  match goal with
  | |- context [over_cap ?mf ?i] => destruct (over_cap mf i) eqn:Hcap
  end;
  [ | match goal with
      | |- context [process_frame ?c ?p ?s ?st ?w] =>
          destruct (process_frame c p s st w) as [? [?|?]] eqn:Hframe
      end ].

(** ** Facts on binary64 comparisons *)

Lemma SFeqb_not_gt (a b : spec_float) :
  SFeqb a b = true -> SFltb b a = false.
Proof.
  unfold SFeqb, SFltb.
  destruct a as [sa|sa| |sa ma ea], b as [sb|sb| |sb mb eb]; simpl;
    try discriminate; try reflexivity;
    try (destruct sa, sb; simpl; (discriminate || reflexivity)).
  destruct sa, sb; try discriminate;
    destruct (Z.compare ea eb) eqn:He; try discriminate;
    apply Z.compare_eq in He; subst eb; rewrite Z.compare_refl;
    destruct (Pos.compare_cont Eq ma mb) eqn:Hm; try discriminate;
    change (Pos.compare ma mb = Eq) in Hm; apply Pos.compare_eq in Hm;
    subst mb; change (Pos.compare_cont Eq ma ma) with (Pos.compare ma ma);
    rewrite Pos.compare_refl; reflexivity.
Qed.

(** [a == b] excludes [b < a]: a tie is never "greater than". *)
Lemma float_eqb_not_gt (a b : float) :
  (a =? b)%float = true -> (b <? a)%float = false.
Proof.
  rewrite eqb_spec, ltb_spec. apply SFeqb_not_gt.
Qed.

(** A float greater than zero is truthy. *)
Lemma float_positive_truthy (f : float) :
  (0 <? f)%float = true -> float_truthy f = true.
Proof.
  unfold float_truthy. rewrite eqb_spec, ltb_spec.
  change (Prim2SF 0) with (S754_zero false).
  unfold SFeqb, SFltb.
  destruct (Prim2SF f) as [s|s| |s m e]; simpl; try discriminate;
    destruct s; simpl; (discriminate || reflexivity).
Qed.

Lemma positive_truthy (n : number) : is_positive n = true -> truthy n = true.
Proof.
  destruct n as [z|f]; simpl.
  - intros H. apply Z.ltb_lt in H. apply negb_true_iff, Z.eqb_neq. lia.
  - apply float_positive_truthy.
Qed.

Lemma binary_round_signed (sx : bool) (mx : positive) (ex : Z) :
  signed sx (binary_round prec emax sx mx ex).
Proof.
  unfold binary_round.
  destruct (shl_align mx ex _) as [mz ez].
  unfold binary_round_aux.
  destruct (shr_fexp prec emax (Z.pos mz) ez loc_Exact) as [mrs e1].
  destruct (shr_fexp prec emax _ e1 loc_Exact) as [mrs2 e2].
  destruct (shr_m mrs2); simpl; auto.
  destruct (Z.leb e2 _); simpl; auto.
Qed.

Lemma SFldexp_signed (sx : bool) (r : spec_float) (e : Z) :
  signed sx r -> signed sx (SFldexp prec emax r e).
Proof.
  destruct r as [s|s| |s m e0]; simpl; auto.
  intros ->. apply binary_round_signed.
Qed.

Lemma SFopp_signed (sx : bool) (r : spec_float) :
  signed sx r -> signed (negb sx) (SFopp r).
Proof. destruct r; simpl; auto; intros ->; reflexivity. Qed.

Lemma of_uint63_signed (n : PrimInt63.int) :
  signed false (Prim2SF (of_uint63 n)).
Proof.
  rewrite of_uint63_spec.
  pose proof (Uint63.to_Z_bounded n) as Hb.
  destruct (Uint63.to_Z n) as [|p|p]; simpl.
  - reflexivity.
  - apply binary_round_signed.
  - lia.
Qed.

(** Nothing negative is greater than zero. *)
Lemma SF2Prim_signed_true (r : spec_float) :
  signed true r -> (0 <? SF2Prim r)%float = false.
Proof.
  intros H. rewrite ltb_spec. change (Prim2SF 0) with (S754_zero false).
  assert (Hs : signed true (Prim2SF (SF2Prim r))).
  { destruct r as [s|s| |s m e]; simpl in *; try subst s; try exact I;
      try reflexivity.
    rewrite opp_spec. apply (@SFopp_signed false).
    unfold Z.ldexp. rewrite ldshiftexp_spec.
    apply SFldexp_signed. apply of_uint63_signed. }
  destruct (Prim2SF (SF2Prim r)) as [s|s| |s m e]; simpl in *;
    try subst s; reflexivity.
Qed.

(** An int whose float is greater than zero is greater than zero. *)
Lemma float_of_Z_positive (z : Z) :
  (0 <? float_of_Z z)%float = true -> (0 < z)%Z.
Proof.
  destruct z as [|p|p]; intros H.
  - discriminate H.
  - lia.
  - unfold float_of_Z in H. simpl binary_normalize in H.
    rewrite SF2Prim_signed_true in H; [discriminate|].
    apply binary_round_signed.
Qed.

(** A number whose float is greater than zero is greater than zero. *)
Lemma float_value_positive (n : number) :
  (0 <? float_value n)%float = true -> is_positive n = true.
Proof.
  destruct n as [z|f]; simpl; intros H; [|exact H].
  apply Z.ltb_lt. apply float_of_Z_positive. exact H.
Qed.

(** ** Shapes, differences and indexing *)

Lemma shape_eqb_refl (s : list nat) : shape_eqb s s = true.
Proof.
  induction s as [|n s IH]; simpl; [reflexivity|].
  rewrite Nat.eqb_refl. exact IH.
Qed.

(** Two landmark arrays have the same shape exactly when they have the same
    number of rows. *)
Lemma shape_eqb_length (a b : Landmarks) :
  shape_eqb (shape a) (shape b) = true <-> List.length a = List.length b.
Proof.
  destruct a as [|x a], b as [|y b]; simpl; split; intros H;
    try reflexivity; try discriminate.
  - rewrite andb_true_r in H. apply Nat.eqb_eq in H. congruence.
  - injection H as H. rewrite H, Nat.eqb_refl. reflexivity.
Qed.

Lemma sub_length (a b : Landmarks) :
  List.length a = List.length b -> List.length (sub a b) = List.length a.
Proof.
  intros H. unfold sub. rewrite length_map, length_combine, <- H.
  apply Nat.min_id.
Qed.

(** Row [i] of [a - b] is the componentwise difference of rows [i]. *)
Lemma sub_nth (a b : Landmarks) (i : nat) (p q : float * float) :
  nth_error a i = Some p -> nth_error b i = Some q ->
  nth_error (sub a b) i = Some ((fst p - fst q)%float, (snd p - snd q)%float).
Proof.
  revert b i. induction a as [|x a IH]; intros [|y b] [|i] Ha Hb;
    simpl in *; try discriminate.
  - injection Ha as <-. injection Hb as <-. reflexivity.
  - apply IH; assumption.
Qed.

Lemma linalg_norm_axis1_rows (a : Landmarks) :
  (0 < List.length a)%nat -> linalg_norm_axis1 a = Return (map norm2 a).
Proof.
  destruct a as [|row rows]; simpl; intros H; [lia | reflexivity].
Qed.

Lemma take_in_range (d : list float) (idx : list nat) :
  Forall (fun i => (i < List.length d)%nat) idx ->
  take d idx = Return (map (fun i => nth i d 0%float) idx).
Proof.
  induction 1 as [|i idx Hi _ IH]; simpl; [reflexivity|].
  destruct (nth_error d i) as [x|] eqn:E.
  - rewrite IH. simpl. rewrite (nth_error_nth _ _ _ E). reflexivity.
  - apply nth_error_None in E. lia.
Qed.

Lemma take_out_of_range (d : list float) (idx : list nat) :
  Exists (fun i => (List.length d <= i)%nat) idx ->
  take d idx = Raise IndexError.
Proof.
  induction 1 as [i idx Hi|i idx _ IH]; simpl.
  - apply nth_error_None in Hi. rewrite Hi. reflexivity.
  - destruct (nth_error d i); [rewrite IH|]; reflexivity.
Qed.

Lemma left_idx_bound : Forall (fun i => (i < 29)%nat) left_idx.
Proof. unfold left_idx. repeat constructor; lia. Qed.

Lemma right_idx_bound : Forall (fun i => (i < 29)%nat) right_idx.
Proof. unfold right_idx. repeat constructor; lia. Qed.

Lemma idx_in_range (idx : list nat) (n : nat) :
  Forall (fun i => (i < 29)%nat) idx -> (28 < n)%nat ->
  Forall (fun i => (i < n)%nat) idx.
Proof.
  intros H Hn. eapply Forall_impl; [|exact H]. simpl. intros; lia.
Qed.

(** An index list is served only by more than [28] distances; the last
    index of [right_idx] is out of range otherwise. *)
Lemma take_both_needs_29 (d l r : list float) :
  take d left_idx = Return l -> take d right_idx = Return r ->
  (28 < List.length d)%nat.
Proof.
  intros _ Hr.
  destruct (Nat.ltb_spec 28 (List.length d)) as [H|H]; [exact H|].
  rewrite (@take_out_of_range d right_idx) in Hr; [discriminate|].
  unfold right_idx. do 5 apply Exists_cons_tl. apply Exists_cons_hd. lia.
Qed.

(** ** The comparison with the previous frame *)
Section Step.

Context {K : Kernels}.

Lemma distances_length (landmarks prev : Landmarks) :
  List.length prev = List.length landmarks ->
  List.length (distances landmarks prev) = List.length landmarks.
Proof.
  intros H. unfold distances. rewrite length_map. apply sub_length.
  symmetry. exact H.
Qed.

(** With every index in range the comparison returns, and adds what
    lines 107-113 add. *)
Lemma accumulate_ok (st : Locals) (landmarks prev : Landmarks) :
  List.length prev = List.length landmarks ->
  (28 < List.length landmarks)%nat ->
  let diff := distances landmarks prev in
  accumulate st landmarks prev =
  Return {| frames_with_pose := frames_with_pose st;
            prev_landmarks := prev_landmarks st;
            movement_accumulator :=
              (movement_accumulator st + np_sum diff)%float;
            total_points := (total_points st + List.length landmarks)%nat;
            left_movement :=
              (left_movement st
               + np_sum (map (fun i => nth i diff 0%float) left_idx))%float;
            right_movement :=
              (right_movement st
               + np_sum (map (fun i => nth i diff 0%float) right_idx))%float;
            frame_idx := frame_idx st; written := written st |}.
Proof.
  intros Hlen Hbig diff. subst diff.
  pose proof (distances_length landmarks prev Hlen) as Hd.
  unfold accumulate.
  rewrite linalg_norm_axis1_rows
    by (rewrite sub_length by (symmetry; exact Hlen); lia).
  cbn [bind].
  change (map norm2 (sub landmarks prev)) with (distances landmarks prev).
  set (d := distances landmarks prev) in *.
  rewrite (@take_in_range d left_idx)
    by (apply idx_in_range; [apply left_idx_bound | lia]).
  cbn [bind].
  rewrite (@take_in_range d right_idx)
    by (apply idx_in_range; [apply right_idx_bound | lia]).
  cbn [bind]. rewrite Hd. reflexivity.
Qed.

(** A comparison that returns has added a positive number of points, and
    leaves the pose counter, the previous pose and the frame counters
    alone. *)
Lemma accumulate_inv (st st' : Locals) (landmarks prev : Landmarks) :
  accumulate st landmarks prev = Return st' ->
  frames_with_pose st' = frames_with_pose st /\
  prev_landmarks st' = prev_landmarks st /\
  frame_idx st' = frame_idx st /\
  written st' = written st /\
  (total_points st < total_points st')%nat.
Proof.
  unfold accumulate.
  destruct (linalg_norm_axis1 (sub landmarks prev)) as [diff|] eqn:E;
    cbn [bind]; [|discriminate].
  assert (Hpos : (0 < List.length diff)%nat).
  { unfold linalg_norm_axis1 in E.
    destruct (sub landmarks prev); [discriminate|].
    injection E as <-. simpl. lia. }
  destruct (take diff left_idx) as [l|]; cbn [bind]; [|discriminate].
  destruct (take diff right_idx) as [r|]; cbn [bind]; [|discriminate].
  intros H. injection H as <-. simpl. repeat split; lia.
Qed.

End Step.

(** ** One frame *)
Section Frame.

Context {K : Kernels}.

(** What a detected pose leaves behind when [on_pose] returns. *)
Lemma on_pose_inv (st st' : Locals) (landmarks : Landmarks) :
  on_pose st landmarks = Return st' ->
  frames_with_pose st' = S (frames_with_pose st) /\
  prev_landmarks st' = Some landmarks /\
  frame_idx st' = frame_idx st /\
  written st' = written st /\
  match comparable (prev_landmarks st) landmarks with
  | Some _ => (total_points st < total_points st')%nat
  | None =>
      total_points st' = total_points st /\
      movement_accumulator st' = movement_accumulator st /\
      left_movement st' = left_movement st /\
      right_movement st' = right_movement st
  end.
Proof.
  unfold on_pose. cbn [prev_landmarks].
  destruct (comparable (prev_landmarks st) landmarks) as [prev|];
    cbn [bind].
  - destruct (accumulate _ landmarks prev) as [st2|] eqn:E;
      cbn [bind]; [|discriminate].
    apply accumulate_inv in E. simpl in E.
    intros H. injection H as <-. simpl. intuition lia.
  - intros H. injection H as <-. simpl. intuition reflexivity.
Qed.

(** A pose with every index of [left_idx] and [right_idx] never raises. *)
Lemma on_pose_ok (st : Locals) (landmarks : Landmarks) :
  (28 < List.length landmarks)%nat ->
  exists st', on_pose st landmarks = Return st'.
Proof.
  intros Hbig. unfold on_pose. cbn [prev_landmarks].
  destruct (comparable (prev_landmarks st) landmarks) as [prev|] eqn:E;
    cbn [bind]; [|eexists; reflexivity].
  unfold comparable in E.
  destruct (prev_landmarks st) as [p|]; [|discriminate].
  destruct (shape_eqb (shape landmarks) (shape p)) eqn:Hs; [|discriminate].
  injection E as <-. apply shape_eqb_length in Hs.
  rewrite accumulate_ok by (auto; lia). cbn [bind]. eexists; reflexivity.
Qed.

(** A frame that is processed to its end was inferred on, went through
    [on_pose] if it had a pose, and was written and counted. *)
Lemma process_frame_inv (c : Z) (pose : result (option Landmarks))
    (sink : result unit) (st st' : Locals) (w w' : World) :
  process_frame c pose sink st w = (w', Return st') ->
  exists results st1,
    pose = Return results /\
    match results with
    | Some landmarks => on_pose st landmarks = Return st1
    | None => st1 = st
    end /\
    st' = count_written st1 /\
    w' = write_frame {| label := (frame_idx st1, c); overlay := results |} w.
Proof.
  unfold process_frame. destruct pose as [results|e]; [|discriminate].
  destruct results as [landmarks|].
  - destruct (on_pose st landmarks) as [st1|e] eqn:E; [|discriminate].
    destruct sink as [u|e]; [|discriminate].
    intros H. injection H as <- <-.
    exists (Some landmarks), st1. auto.
  - destruct sink as [u|e]; [|discriminate].
    intros H. injection H as <- <-. exists None, st. auto.
Qed.

(** A frame on which something raises leaves the world as it was. *)
Lemma process_frame_raise (c : Z) (pose : result (option Landmarks))
    (sink : result unit) (st : Locals) (w w' : World) (e : exn) :
  process_frame c pose sink st w = (w', Raise e) -> w' = w.
Proof.
  unfold process_frame. destruct pose as [results|e0].
  - destruct (match results with
              | Some landmarks => on_pose st landmarks
              | None => Return st
              end) as [st1|e1].
    + destruct sink as [u|e2]; intros H; [discriminate|].
      injection H as <- _. reflexivity.
    + intros H. injection H as <- _. reflexivity.
  - intros H. injection H as <- _. reflexivity.
Qed.

(** No frame opens or closes a handle. *)
Lemma process_frame_live (c : Z) (pose : result (option Landmarks))
    (sink : result unit) (st : Locals) (w w' : World) (r : result Locals) :
  process_frame c pose sink st w = (w', r) -> live w' = live w.
Proof.
  destruct r as [st'|e]; intros H.
  - apply process_frame_inv in H.
    destruct H as (results & st1 & _ & _ & _ & ->). reflexivity.
  - apply process_frame_raise in H. subst. reflexivity.
Qed.

End Frame.

(** ** The frame loop *)

Section Loop.

Context {K : Kernels}.

Variable max_frames : option Z.
Variable input_frame_count : Z.

(** The loop opens and closes no handle. *)
Lemma frame_loop_live (stream : list frame_event) :
  forall (st : Locals) (w w' : World) (r : result Locals),
    frame_loop max_frames input_frame_count stream st w = (w', r) ->
    live w' = live w.
Proof.
  induction stream as [|[e|pose sink] rest IH]; intros st w w' r.
  - simpl. intros H. injection H as <- _. reflexivity.
  - simpl. intros H. injection H as <- _. reflexivity.
  - loop_cases Hcap Hframe.
    + intros H. injection H as <- _. reflexivity.
    + intros H. apply IH in H. rewrite H.
      eapply process_frame_live; eassumption.
    + intros H. injection H as <- _.
      eapply process_frame_live; eassumption.
Qed.

(** Every frame counted in [written] is one more frame in the output
    file, whose frame rate and size stay as the writer was given them; and
    the pose counter grows no faster than [written]. *)
Lemma frame_loop_counts (stream : list frame_event) :
  forall (st st' : Locals) (w w' : World) (v : OutVideo),
    frame_loop max_frames input_frame_count stream st w = (w', Return st') ->
    output_file w = Some v ->
    (written st <= written st')%nat /\
    (frames_with_pose st' + written st
     <= frames_with_pose st + written st')%nat /\
    (total_points st <= total_points st')%nat /\
    exists v',
      output_file w' = Some v' /\
      out_fps_meta v' = out_fps_meta v /\
      out_size v' = out_size v /\
      (List.length (out_frames v') + written st
       = List.length (out_frames v) + written st')%nat.
Proof.
  induction stream as [|[e|pose sink] rest IH]; intros st st' w w' v.
  - simpl. intros H Hv. injection H as <- <-.
    repeat split; try lia. exists v. auto.
  - simpl. discriminate.
  - loop_cases Hcap Hframe.
    + intros H Hv. injection H as <- <-. simpl.
      repeat split; try lia. exists v. auto.
    + intros H Hv. apply process_frame_inv in Hframe.
      destruct Hframe as (results & st1 & _ & Hres & -> & ->).
      specialize (IH _ _ _ _
        {| out_fps_meta := out_fps_meta v; out_size := out_size v;
           out_frames := out_frames v
             ++ [{| label := (frame_idx st1, input_frame_count);
                    overlay := results |}] |} H).
      destruct IH as (Hw & Hp & Ht & v' & Hv' & Hfps & Hsize & Hlen).
      { unfold write_frame. simpl. rewrite Hv. reflexivity. }
      simpl in *. rewrite length_app in Hlen. simpl in Hlen.
      assert (Hst1 : written st1 = written st /\
                     (frames_with_pose st1 <= S (frames_with_pose st))%nat /\
                     (total_points st <= total_points st1)%nat).
      { destruct results as [landmarks|].
        - apply on_pose_inv in Hres. simpl in Hres.
          destruct Hres as (Hf & _ & _ & Hwr & Hcmp).
          destruct (comparable (prev_landmarks st) landmarks);
            intuition lia.
        - subst st1. simpl. lia. }
      destruct Hst1 as (Hwr & Hfp & Htp).
      repeat split; try lia. exists v'. repeat split; auto; lia.
    + discriminate.
Qed.

(** At the head of the loop [frame_idx] and [written] agree; from there a
    loop that returns under a positive cap has written the smaller of the
    cap and what the decoder had. *)
Lemma frame_loop_capped (m : Z) (stream : list frame_event) :
  max_frames = Some m -> (0 < m)%Z ->
  forall (st st' : Locals) (w w' : World),
    frame_idx st = written st ->
    (Z.of_nat (written st) <= m)%Z ->
    frame_loop max_frames input_frame_count stream st w = (w', Return st') ->
    Z.of_nat (written st')
    = Z.min m (Z.of_nat (written st + List.length stream)).
Proof.
  intros Hm Hpos.
  induction stream as [|[e|pose sink] rest IH]; intros st st' w w' Hidx Hle.
  - simpl. intros H. injection H as _ <-. lia.
  - simpl. discriminate.
  - loop_cases Hcap Hframe.
    + intros H. injection H as _ <-. simpl in *.
      rewrite Hm in Hcap. simpl in Hcap.
      apply andb_true_iff in Hcap. destruct Hcap as [_ Hcap].
      apply Z.ltb_lt in Hcap. lia.
    + intros H. apply process_frame_inv in Hframe.
      destruct Hframe as (results & st1 & _ & Hres & -> & ->).
      assert (Hst1 : written st1 = written st /\
                     frame_idx st1 = S (frame_idx st)).
      { destruct results as [landmarks|].
        - apply on_pose_inv in Hres. simpl in Hres. intuition congruence.
        - subst st1. simpl. auto. }
      destruct Hst1 as (Hwr & Hfi).
      rewrite Hm in Hcap. simpl in Hcap.
      assert (Hnc : (m <? Z.of_nat (S (frame_idx st)))%Z = false).
      { destruct (m =? 0)%Z eqn:E0; [apply Z.eqb_eq in E0; lia|].
        exact Hcap. }
      apply Z.ltb_ge in Hnc.
      apply IH in H; simpl in *; try lia.
    + discriminate.
Qed.

(** Without a cap ([None], or the falsy [0]) a loop that returns has
    written every frame. *)
Lemma frame_loop_uncapped (stream : list frame_event) :
  max_frames = None \/ max_frames = Some 0%Z ->
  forall (st st' : Locals) (w w' : World),
    frame_loop max_frames input_frame_count stream st w = (w', Return st') ->
    written st' = (written st + List.length stream)%nat.
Proof.
  intros Hm.
  assert (Hno : forall i, over_cap max_frames i = false)
    by (destruct Hm as [-> | ->]; reflexivity).
  induction stream as [|[e|pose sink] rest IH]; intros st st' w w'.
  - simpl. intros H. injection H as _ <-. lia.
  - simpl. discriminate.
  - cbn [frame_loop]. rewrite Hno.
    destruct (process_frame _ pose sink (next_frame st) w)
      as [w1 [st2|e]] eqn:Hframe; [|discriminate].
    intros H. apply process_frame_inv in Hframe.
    destruct Hframe as (results & st1 & _ & Hres & -> & ->).
    apply IH in H. simpl in *.
    assert (Hwr : written st1 = written st).
    { destruct results as [landmarks|].
      - apply on_pose_inv in Hres. simpl in Hres. intuition congruence.
      - subst st1. reflexivity. }
    lia.
Qed.

(** On events that raise nothing the loop returns. *)
Lemma frame_loop_benign (stream : list frame_event) :
  forallb benign stream = true ->
  forall (st : Locals) (w : World),
    exists w' st',
      frame_loop max_frames input_frame_count stream st w = (w', Return st').
Proof.
  induction stream as [|ev rest IH]; intros Hb st w.
  - simpl. eauto.
  - simpl in Hb. apply andb_true_iff in Hb. destruct Hb as [Hev Hrest].
    destruct ev as [e|[[landmarks|]|e] [u|e']]; try discriminate;
      cbn [frame_loop];
      destruct (over_cap max_frames (frame_idx (next_frame st)));
      eauto.
    + simpl in Hev. apply Nat.ltb_lt in Hev.
      destruct (@on_pose_ok _ (next_frame st) landmarks Hev) as [st1 Hst1].
      unfold process_frame. rewrite Hst1. apply IH. exact Hrest.
    + unfold process_frame. apply IH. exact Hrest.
Qed.

(** The point counter is zero at the end exactly when it was zero at the
    start and no processed frame was compared with a previous pose. *)
Lemma frame_loop_points (stream : list frame_event) :
  forall (st st' : Locals) (w w' : World),
    frame_loop max_frames input_frame_count stream st w = (w', Return st') ->
    (total_points st <= total_points st')%nat /\
    (total_points st' = 0%nat <->
     total_points st = 0%nat /\
     comparisons max_frames stream (prev_landmarks st) (frame_idx st)
     = 0%nat).
Proof.
  induction stream as [|[e|pose sink] rest IH]; intros st st' w w'.
  - simpl. intros H. injection H as _ <-. intuition lia.
  - simpl. discriminate.
  - loop_cases Hcap Hframe.
    + intros H. injection H as _ <-. simpl in *.
      destruct pose as [results|e]; [rewrite Hcap|]; intuition lia.
    + intros H. apply process_frame_inv in Hframe.
      destruct Hframe as (results & st1 & -> & Hres & -> & ->).
      apply IH in H. simpl in H. cbn [comparisons].
      simpl in Hcap. rewrite Hcap.
      destruct results as [landmarks|].
      * apply on_pose_inv in Hres. simpl in Hres.
        destruct Hres as (_ & Hprev & Hidx & _ & Hcmp).
        rewrite Hprev, Hidx in H.
        destruct (comparable (prev_landmarks st) landmarks);
          intuition lia.
      * subst st1. simpl in H. exact H.
    + discriminate.
Qed.

End Loop.

(** ** A call as a whole *)
Section Call.

Context {K : Kernels}.

(** When [float] returns at line 52, it returns [chosen_rate]. *)
Lemma choose_fps_value (target_fps : option number) (in_fps fps : float) :
  choose_fps target_fps in_fps = Return fps ->
  fps = chosen_rate target_fps in_fps.
Proof.
  unfold choose_fps, chosen_rate, to_float.
  destruct target_fps as [[z|f]|]; simpl.
  - destruct (negb (z =? 0)%Z); [|intros H; injection H as <-; reflexivity].
    destruct (is_infinity (float_of_Z z)); [discriminate|].
    intros H. injection H as <-. reflexivity.
  - destruct (float_truthy f); intros H; injection H as <-; reflexivity.
  - intros H. injection H as <-. reflexivity.
Qed.

(** A call that returns has opened the decoder and the encoder, run the
    loop to its end, cleaned up and finalized the metrics. *)
Lemma process_video_returns (env : Env) (target_fps : option number)
    (max_frames : option Z) (return_metrics : bool)
    (w : World) (n : nat) (fps : float) (om : option Metrics) :
  process_video env target_fps max_frames return_metrics
  = (w, Return (n, fps, om)) ->
  exists cap w4 st,
    VideoCapture (input env) = Some cap /\
    run_loop env cap target_fps max_frames = (w4, Return st) /\
    w = cleanup w4 /\
    n = written st /\
    fps = chosen_rate target_fps (float_or (CAP_PROP_FPS cap) 30) /\
    om = (if return_metrics then Some (finalize st) else None).
Proof.
  unfold process_video, run_loop, at_loop_entry.
  destruct (isfile (input env)); simpl; [|discriminate].
  destruct (VideoCapture (input env)) as [cap|]; [|discriminate].
  destruct (choose_fps target_fps (float_or (CAP_PROP_FPS cap) 30))
    as [out_fps|e] eqn:Hfps; [|discriminate].
  apply choose_fps_value in Hfps. subst out_fps.
  destruct (writer_opens env _); simpl; [|discriminate].
  destruct (estimator env); [discriminate|].
  match goal with
  | |- context [frame_loop ?a ?b ?c ?d ?e] =>
      destruct (frame_loop a b c d e) as [w4 [st|e0]] eqn:Hloop
  end; [|discriminate].
  intros H. injection H as <- <- <- <-.
  exists cap, w4, st. repeat split; auto.
Qed.

(** A call that returns got through the set-up: [float] returned the frame
    rate, the encoder opened at it and the estimator was created. *)
Lemma process_video_set_up (env : Env) (target_fps : option number)
    (max_frames : option Z) (return_metrics : bool)
    (w : World) (n : nat) (fps : float) (om : option Metrics) :
  process_video env target_fps max_frames return_metrics
  = (w, Return (n, fps, om)) ->
  exists cap,
    input env = Playable cap /\
    choose_fps target_fps (float_or (CAP_PROP_FPS cap) 30) = Return fps /\
    writer_opens env fps = true /\
    estimator env = None.
Proof.
  unfold process_video.
  destruct (input env) as [| | | |cap]; simpl; try discriminate.
  destruct (choose_fps target_fps (float_or (CAP_PROP_FPS cap) 30))
    as [out_fps|e] eqn:Hfps; [|discriminate].
  destruct (writer_opens env out_fps) eqn:Hwr; simpl; [|discriminate].
  destruct (estimator env) eqn:Hest; [discriminate|].
  match goal with
  | |- context [frame_loop ?a ?b ?c ?d ?e] =>
      destruct (frame_loop a b c d e) as [w4 [st|e0]]
  end; [|discriminate].
  intros H. injection H as _ _ <- _.
  exists cap. auto.
Qed.

(** With the file in place, [float] returning the frame rate, the encoder
    opening at it, the estimator created and nothing raising, a call
    returns. *)
Lemma process_video_benign (env : Env) (cap : Video)
    (target_fps : option number) (max_frames : option Z)
    (return_metrics : bool) (fps : float) :
  input env = Playable cap ->
  choose_fps target_fps (float_or (CAP_PROP_FPS cap) 30) = Return fps ->
  writer_opens env fps = true -> estimator env = None ->
  forallb benign (frames cap) = true ->
  exists w4 st,
    run_loop env cap target_fps max_frames = (w4, Return st) /\
    process_video env target_fps max_frames return_metrics
    = (cleanup w4,
       Return (written st, fps,
               if return_metrics then Some (finalize st) else None)).
Proof.
  intros Hin Hfps Hwr Hest Hb.
  destruct (@frame_loop_benign K max_frames
              (int_or (CAP_PROP_FRAME_COUNT cap) 0) (frames cap) Hb
              init_locals (at_loop_entry env cap target_fps))
    as (w4 & st & Hloop).
  exists w4, st. split; [exact Hloop|].
  unfold process_video. rewrite Hin. simpl. rewrite Hfps, Hwr, Hest. simpl.
  unfold run_loop, at_loop_entry in Hloop.
  rewrite <- (choose_fps_value _ _ Hfps) in Hloop.
  rewrite Hloop. reflexivity.
Qed.

(** While the loop runs the call holds its three handles. *)
Lemma handles_held_in_loop (env : Env) (cap : Video)
    (target_fps : option number) :
  live (at_loop_entry env cap target_fps) = [PoseSession; Writer; Capture].
Proof. reflexivity. Qed.

End Call.

(** ** The metrics of a completed call *)
Section Metrics.

Context {K : Kernels}.

(** C1.  When a call to [process_video] returns its metrics, they are
    derived from the locals [st] the frame loop ended with: if
    [total_points > 0], [avg_movement_intensity] is
    [round(movement_accumulator / total_points, 5)] and [dominant_limb] is
    ["left"] if [left_movement > right_movement] and ["right"] otherwise,
    so that a tie gives ["right"]; if [total_points] is zero,
    [avg_movement_intensity] is [0.0] and [dominant_limb] is absent. *)
Theorem metrics_finalized (env : Env) (target_fps : option number)
    (max_frames : option Z) (return_metrics : bool)
    (w : World) (n : nat) (fps : float) (m : Metrics) :
  process_video env target_fps max_frames return_metrics
  = (w, Return (n, fps, Some m)) ->
  exists cap w4 st,
    VideoCapture (input env) = Some cap /\
    run_loop env cap target_fps max_frames = (w4, Return st) /\
    ((0 < total_points st)%nat ->
     avg_movement_intensity m
     = round5 (movement_accumulator st
               / float_of_Z (Z.of_nat (total_points st)))%float /\
     dominant_limb m
     = Some (if (right_movement st <? left_movement st)%float
             then "left"%string else "right"%string) /\
     ((left_movement st =? right_movement st)%float = true ->
      dominant_limb m = Some "right"%string)) /\
    (total_points st = 0%nat ->
     avg_movement_intensity m = 0%float /\ dominant_limb m = None).
Proof.
  intros H. apply process_video_returns in H.
  destruct H as (cap & w4 & st & Hcap & Hloop & _ & _ & _ & Hm).
  exists cap, w4, st. split; [exact Hcap|]. split; [exact Hloop|].
  destruct return_metrics; [|discriminate].
  injection Hm as ->. unfold finalize. split.
  - intros Hpos. apply Nat.ltb_lt in Hpos. rewrite Hpos. simpl.
    repeat split. intros Htie.
    rewrite (float_eqb_not_gt Htie). reflexivity.
  - intros Hz. rewrite Hz. simpl. split; reflexivity.
Qed.

(** C3.  The [dominant_limb] a call returns is ["left"], ["right"] or
    absent, and it is absent exactly when no processed frame was compared
    with a previous pose, that is when no displacement was accumulated. *)
Theorem dominant_limb_absent_iff (env : Env) (target_fps : option number)
    (max_frames : option Z) (return_metrics : bool)
    (w : World) (n : nat) (fps : float) (m : Metrics) :
  process_video env target_fps max_frames return_metrics
  = (w, Return (n, fps, Some m)) ->
  (dominant_limb m = Some "left"%string \/
   dominant_limb m = Some "right"%string \/
   dominant_limb m = None) /\
  exists cap,
    VideoCapture (input env) = Some cap /\
    (dominant_limb m = None <->
     comparisons max_frames (frames cap) None 0 = 0%nat).
Proof.
  intros H. apply process_video_returns in H.
  destruct H as (cap & w4 & st & Hcap & Hloop & _ & _ & _ & Hm).
  destruct return_metrics; [|discriminate].
  injection Hm as ->.
  apply frame_loop_points in Hloop. simpl in Hloop.
  destruct Hloop as [_ Hiff].
  unfold finalize. split.
  - destruct (0 <? total_points st)%nat; simpl; [|auto].
    destruct (right_movement st <? left_movement st)%float; auto.
  - exists cap. split; [exact Hcap|].
    destruct (0 <? total_points st)%nat eqn:E; simpl.
    + apply Nat.ltb_lt in E. split; [discriminate|].
      intros Hc. assert (total_points st = 0%nat) by (apply Hiff; auto).
      lia.
    + apply Nat.ltb_ge in E. split; [|reflexivity].
      intros _. apply Hiff. lia.
Qed.

(** C6.  In the metrics of a call that returns, [frames_processed] is the
    returned [written], which is the number of frames in the output
    file. *)
Theorem frames_processed_is_written (env : Env)
    (target_fps : option number) (max_frames : option Z)
    (return_metrics : bool)
    (w : World) (n : nat) (fps : float) (m : Metrics) :
  process_video env target_fps max_frames return_metrics
  = (w, Return (n, fps, Some m)) ->
  frames_processed m = n /\
  exists v, output_file w = Some v /\ List.length (out_frames v) = n.
Proof.
  intros H. apply process_video_returns in H.
  destruct H as (cap & w4 & st & Hcap & Hloop & -> & -> & _ & Hm).
  destruct return_metrics; [|discriminate].
  injection Hm as ->.
  eapply frame_loop_counts in Hloop; [|reflexivity].
  destruct Hloop as (_ & _ & _ & v & Hv & _ & _ & Hlen).
  simpl in Hlen. split.
  - unfold finalize. destruct (0 <? total_points st)%nat; reflexivity.
  - exists v. split; [exact Hv | lia].
Qed.

(** C10.  In the metrics of a call that returns,
    [0 <= frames_with_pose <= frames_processed]: the pose counter is only
    incremented in a turn of the loop that also writes a frame. *)
Theorem pose_count_bounded (env : Env) (target_fps : option number)
    (max_frames : option Z) (return_metrics : bool)
    (w : World) (n : nat) (fps : float) (m : Metrics) :
  process_video env target_fps max_frames return_metrics
  = (w, Return (n, fps, Some m)) ->
  (0 <= m_frames_with_pose m <= frames_processed m)%nat.
Proof.
  intros H. apply process_video_returns in H.
  destruct H as (cap & w4 & st & Hcap & Hloop & _ & _ & _ & Hm).
  destruct return_metrics; [|discriminate].
  injection Hm as ->.
  eapply frame_loop_counts in Hloop; [|reflexivity].
  destruct Hloop as (_ & Hp & _). simpl in Hp.
  unfold finalize. destruct (0 <? total_points st)%nat; simpl; lia.
Qed.

End Metrics.

(** ** Movement tracking from frame to frame *)
Section Tracking.

Context {K : Kernels}.

(** What lines 105-115 do to the locals when the pose has a previous one
    of the same length and every index of [left_idx] and [right_idx] is in
    range. *)
Lemma comparison_in_range (st : Locals) (landmarks prev : Landmarks) :
  prev_landmarks st = Some prev ->
  List.length prev = List.length landmarks ->
  (28 < List.length landmarks)%nat ->
  let diff := distances landmarks prev in
  List.length diff = List.length landmarks /\
  (forall i p q,
      nth_error landmarks i = Some p -> nth_error prev i = Some q ->
      nth_error diff i = Some (euclid p q)) /\
  on_pose st landmarks =
  Return {| frames_with_pose := S (frames_with_pose st);
            prev_landmarks := Some landmarks;
            movement_accumulator :=
              (movement_accumulator st + np_sum diff)%float;
            total_points := (total_points st + List.length landmarks)%nat;
            left_movement :=
              (left_movement st
               + np_sum (map (fun i => nth i diff 0%float) left_idx))%float;
            right_movement :=
              (right_movement st
               + np_sum (map (fun i => nth i diff 0%float) right_idx))%float;
            frame_idx := frame_idx st; written := written st |}.
Proof.
  intros Hprev Hlen Hbig diff. split; [|split].
  - apply distances_length. exact Hlen.
  - intros i p q Hp Hq. unfold diff, distances.
    rewrite nth_error_map, (sub_nth _ _ _ Hp Hq). reflexivity.
  - unfold on_pose. cbn [prev_landmarks]. rewrite Hprev.
    unfold comparable.
    assert (Hs : shape_eqb (shape landmarks) (shape prev) = true)
      by (apply shape_eqb_length; symmetry; exact Hlen).
    rewrite Hs, accumulate_ok by assumption.
    reflexivity.
Qed.

(** C2.  On every frame where a pose is detected, a pose of the [L]
    landmarks of the estimator: if a previous pose exists and has the same
    length, the displacement is computed as [L] distances, the Euclidean
    distance between the current and the previous keypoint of each
    landmark; their sum is added to [movement_accumulator], [L] is added to
    [total_points], and the sums of the distances at [left_idx] and at
    [right_idx] are added to [left_movement] and [right_movement]. *)
Theorem comparison_accumulates (st : Locals) (landmarks prev : Landmarks) :
  estimator_pose landmarks ->
  prev_landmarks st = Some prev ->
  List.length prev = List.length landmarks ->
  let diff := distances landmarks prev in
  List.length diff = List.length landmarks /\
  (forall i p q,
      nth_error landmarks i = Some p -> nth_error prev i = Some q ->
      nth_error diff i = Some (euclid p q)) /\
  on_pose st landmarks =
  Return {| frames_with_pose := S (frames_with_pose st);
            prev_landmarks := Some landmarks;
            movement_accumulator :=
              (movement_accumulator st + np_sum diff)%float;
            total_points := (total_points st + List.length landmarks)%nat;
            left_movement :=
              (left_movement st
               + np_sum (map (fun i => nth i diff 0%float) left_idx))%float;
            right_movement :=
              (right_movement st
               + np_sum (map (fun i => nth i diff 0%float) right_idx))%float;
            frame_idx := frame_idx st; written := written st |}.
Proof.
  intros Hpose Hprev Hlen. apply comparison_in_range; try assumption.
  unfold estimator_pose, landmark_count, POSE_LANDMARKS in Hpose.
  rewrite Hpose. lia.
Qed.

(** C7.  A frame without a pose leaves [prev_landmarks] and the
    accumulators as they were, so the next pose is compared with the last
    one detected; and a pose whose number of landmarks differs from that of
    [prev_landmarks] is not compared: nothing is accumulated, nothing is
    raised, and the pose becomes the new [prev_landmarks]. *)
Theorem missed_or_mismatched (c : Z) (u : unit) (st : Locals) (w : World)
    (landmarks prev : Landmarks) :
  (process_frame c (Return None) (Return u) st w
   = (write_frame {| label := (frame_idx st, c); overlay := None |} w,
      Return (count_written st)) /\
   prev_landmarks (count_written st) = prev_landmarks st /\
   movement_accumulator (count_written st) = movement_accumulator st /\
   total_points (count_written st) = total_points st /\
   left_movement (count_written st) = left_movement st /\
   right_movement (count_written st) = right_movement st) /\
  (prev_landmarks st = Some prev ->
   List.length prev <> List.length landmarks ->
   on_pose st landmarks =
   Return {| frames_with_pose := S (frames_with_pose st);
             prev_landmarks := Some landmarks;
             movement_accumulator := movement_accumulator st;
             total_points := total_points st;
             left_movement := left_movement st;
             right_movement := right_movement st;
             frame_idx := frame_idx st; written := written st |}).
Proof.
  split.
  - repeat split.
  - intros Hprev Hlen. unfold on_pose. cbn [prev_landmarks].
    rewrite Hprev. unfold comparable.
    destruct (shape_eqb (shape landmarks) (shape prev)) eqn:Hs.
    + apply shape_eqb_length in Hs. congruence.
    + reflexivity.
Qed.

End Tracking.

(** ** The frame rate, the cap, the missing input and the handles *)
Section Contract.

Context {K : Kernels}.

(** Where [target_fps] is absent, zero or greater than zero, line 52 gives
    the frame rate of the specification. *)
Lemma chosen_rate_in_domain (target_fps : option number) (cap : Video) :
  (forall t, target_fps = Some t -> truthy t = true -> is_positive t = true) ->
  chosen_rate target_fps (float_or (CAP_PROP_FPS cap) 30)
  = spec_out_fps target_fps cap.
Proof.
  intros Hdom. unfold chosen_rate, spec_out_fps, source_rate.
  destruct target_fps as [t|]; [|reflexivity].
  destruct (truthy t) eqn:Ht.
  - rewrite (Hdom t eq_refl Ht). reflexivity.
  - destruct (is_positive t) eqn:Hp; [|reflexivity].
    apply positive_truthy in Hp. congruence.
Qed.

(** C4.  The frame rate a call returns, which is the one given to the
    encoder, is [float(target_fps)] when [target_fps] is provided and
    greater than zero, and otherwise the frame rate the source reports,
    30.0 when the source reports zero.  This holds of every call with an
    encoder that, as cv2's, opens at frame rates greater than zero only, and
    with any encoder when [target_fps] is absent, zero or greater than
    zero. *)
Theorem output_frame_rate (env : Env) (target_fps : option number)
    (max_frames : option Z) (return_metrics : bool)
    (w : World) (n : nat) (fps : float) (om : option Metrics) :
  process_video env target_fps max_frames return_metrics
  = (w, Return (n, fps, om)) ->
  exists cap,
    VideoCapture (input env) = Some cap /\
    (positive_rates_only env -> fps = spec_out_fps target_fps cap) /\
    ((forall t, target_fps = Some t -> truthy t = true ->
                is_positive t = true) ->
     fps = spec_out_fps target_fps cap) /\
    (forall t, target_fps = Some t -> is_positive t = true ->
               fps = float_value t) /\
    source_rate cap
    = (if (CAP_PROP_FPS cap =? 0)%float then 30%float
       else CAP_PROP_FPS cap) /\
    exists v, output_file w = Some v /\ out_fps_meta v = fps.
Proof.
  intros H. pose proof (process_video_set_up _ _ _ _ H) as Hset.
  destruct Hset as (cap0 & Hin & _ & Hwr & _).
  apply process_video_returns in H.
  destruct H as (cap & w4 & st & Hcap & Hloop & -> & _ & -> & _).
  rewrite Hin in Hcap. injection Hcap as <-.
  exists cap0. split; [rewrite Hin; reflexivity|].
  split; [|split; [|split; [|split]]].
  - intros Hpos. apply Hpos in Hwr. apply chosen_rate_in_domain.
    intros t -> Ht. simpl in Hwr. rewrite Ht in Hwr.
    apply float_value_positive. exact Hwr.
  - apply chosen_rate_in_domain.
  - intros t -> Hpos. simpl. rewrite (positive_truthy _ Hpos). reflexivity.
  - unfold source_rate, float_or, float_truthy.
    destruct (CAP_PROP_FPS cap0 =? 0)%float; reflexivity.
  - eapply frame_loop_counts in Hloop; [|reflexivity].
    destruct Hloop as (_ & _ & _ & v & Hv & Hfps & _).
    exists v. split; [exact Hv | exact Hfps].
Qed.

(** C5.  Under a positive [max_frames] a call that returns has written
    the smaller of [max_frames] and the number of frames of the source, so
    at most [max_frames]; and when the set-up goes through ([float] returns
    the frame rate, the encoder opens at it, the estimator is created) on a
    source on which nothing raises, the call does return, with that many
    frames written: 5 for [max_frames = 5] on 15 frames. *)
Theorem max_frames_caps (env : Env) (target_fps : option number) (m : Z)
    (return_metrics : bool) :
  (0 < m)%Z ->
  (forall w n fps om,
      process_video env target_fps (Some m) return_metrics
      = (w, Return (n, fps, om)) ->
      (Z.of_nat n <= m)%Z /\
      exists cap,
        VideoCapture (input env) = Some cap /\
        Z.of_nat n = Z.min m (Z.of_nat (List.length (frames cap)))) /\
  (forall cap fps,
      input env = Playable cap ->
      choose_fps target_fps (float_or (CAP_PROP_FPS cap) 30) = Return fps ->
      writer_opens env fps = true -> estimator env = None ->
      forallb benign (frames cap) = true ->
      exists w om,
        process_video env target_fps (Some m) return_metrics
        = (w, Return (Z.to_nat
                        (Z.min m (Z.of_nat (List.length (frames cap)))),
                      fps, om))).
Proof.
  intros Hpos. split.
  - intros w n fps om H. apply process_video_returns in H.
    destruct H as (cap & w4 & st & Hcap & Hloop & _ & -> & _ & _).
    eapply (@frame_loop_capped K (Some m)) in Hloop;
      [|reflexivity|exact Hpos|reflexivity|simpl; lia].
    simpl in Hloop. split; [lia|].
    exists cap. split; [exact Hcap | exact Hloop].
  - intros cap fps Hin Hfps Hwr Hest Hb.
    destruct (@process_video_benign K env cap target_fps (Some m)
                return_metrics fps Hin Hfps Hwr Hest Hb)
      as (w4 & st & Hloop & Hcall).
    eapply (@frame_loop_capped K (Some m)) in Hloop;
      [|reflexivity|exact Hpos|reflexivity|simpl; lia].
    simpl in Hloop. rewrite <- Hloop, Nat2Z.id. eauto.
Qed.

(** C8 (amended).  When [input_path] does not reference an existing,
    readable file the call fails and no output file is created: the file at
    [output_path] is as before and nothing was opened.  It fails with
    [FileNotFoundError] when [input_path] is not an existing regular file
    ([os.path.isfile] is false), and with the [IOError] of a decoder that
    does not open when it is an existing file that cannot be read. *)
Theorem missing_or_unreadable_input (env : Env) (target_fps : option number)
    (max_frames : option Z) (return_metrics : bool) :
  existing_readable (input env) = false ->
  process_video env target_fps max_frames return_metrics
  = ({| output_file := output_before env; live := [] |},
     Raise (if isfile (input env) then IOError "Cannot open video"
            else FileNotFoundError)).
Proof.
  intros H. unfold process_video.
  destruct (input env); try discriminate H; reflexivity.
Qed.

(** C9 (fails on the code).  The [try] that releases the handles starts at
    line 81, after the decoder, the encoder and the estimator are acquired:
    when [float(target_fps)] raises at line 52 the call ends with the
    decoder still held, and when the constructor of the estimator raises at
    lines 62-64 it ends with the decoder and the encoder still held. *)
Theorem setup_failure_leaks_handles (env : Env) (cap : Video)
    (target_fps : option number) (max_frames : option Z)
    (return_metrics : bool) :
  input env = Playable cap ->
  (forall e,
      choose_fps target_fps (float_or (CAP_PROP_FPS cap) 30) = Raise e ->
      process_video env target_fps max_frames return_metrics
      = ({| output_file := output_before env; live := [Capture] |},
         Raise e)) /\
  (forall fps e,
      choose_fps target_fps (float_or (CAP_PROP_FPS cap) 30) = Return fps ->
      writer_opens env fps = true -> estimator env = Some e ->
      exists v,
        process_video env target_fps max_frames return_metrics
        = ({| output_file := Some v; live := [Writer; Capture] |},
           Raise e)).
Proof.
  intros Hin. unfold process_video. rewrite Hin. simpl. split.
  - intros e ->. reflexivity.
  - intros fps e -> Hwr Hest. rewrite Hwr, Hest. simpl.
    eexists. reflexivity.
Qed.

End Contract.

(** ** The claims on the sample inputs *)

#[local] Existing Instance Reference.kernels.

(** The 15-frame clip, processed whole, returns metrics that
    [metrics_finalized] accounts for. *)
Lemma metrics_finalized_witness :
  exists w n fps m,
    process_video (K := Reference.kernels) Demo.env None None true
    = (w, Return (n, fps, Some m)) /\
    exists cap w4 st,
      VideoCapture (input Demo.env) = Some cap /\
      run_loop (K := Reference.kernels) Demo.env cap None None
      = (w4, Return st) /\
      ((0 < total_points st)%nat ->
       avg_movement_intensity m
       = round5 (movement_accumulator st
                 / float_of_Z (Z.of_nat (total_points st)))%float /\
       dominant_limb m
       = Some (if (right_movement st <? left_movement st)%float
               then "left"%string else "right"%string) /\
       ((left_movement st =? right_movement st)%float = true ->
        dominant_limb m = Some "right"%string)) /\
      (total_points st = 0%nat ->
       avg_movement_intensity m = 0%float /\ dominant_limb m = None).
Proof.
  pose proof (@metrics_finalized Reference.kernels Demo.env None None true)
    as T.
  do 4 eexists. split; [|eapply T]; vm_compute; reflexivity.
Defined.

(** On the clip every pose is followed by a comparison with an earlier one,
    and [dominant_limb] is present. *)
Lemma dominant_limb_absent_iff_witness :
  exists w n fps m,
    process_video Demo.env None None true = (w, Return (n, fps, Some m)) /\
    (dominant_limb m = Some "left"%string \/
     dominant_limb m = Some "right"%string \/
     dominant_limb m = None) /\
    exists cap,
      VideoCapture (input Demo.env) = Some cap /\
      (dominant_limb m = None <->
       comparisons None (frames cap) None 0 = 0%nat).
Proof.
  pose proof (@dominant_limb_absent_iff Reference.kernels Demo.env None None
                true) as T.
  do 4 eexists. split; [|eapply T]; vm_compute; reflexivity.
Defined.

(** The clip yields 15 frames, in the metrics and in the output file. *)
Lemma frames_processed_is_written_witness :
  exists w m,
    process_video Demo.env (Some (Int 10)) None true
    = (w, Return (15%nat, 10%float, Some m)) /\
    frames_processed m = 15%nat /\
    exists v, output_file w = Some v /\ List.length (out_frames v) = 15%nat.
Proof.
  pose proof (@frames_processed_is_written Reference.kernels Demo.env
                (Some (Int 10)) None true) as T.
  do 2 eexists. split; [|eapply T]; vm_compute; reflexivity.
Defined.

(** On the clip 12 of the 15 frames have a pose. *)
Lemma pose_count_bounded_witness :
  exists w m,
    process_video Demo.env (Some (Int 10)) None true
    = (w, Return (15%nat, 10%float, Some m)) /\
    (0 <= m_frames_with_pose m <= frames_processed m)%nat.
Proof.
  pose proof (@pose_count_bounded Reference.kernels Demo.env
                (Some (Int 10)) None true) as T.
  do 2 eexists. split; [|eapply T]; vm_compute; reflexivity.
Defined.

(** Two poses of 33 landmarks in a row: 33 points are added. *)
Lemma comparison_accumulates_witness :
  estimator_pose (Demo.pose_at 0.0078125) /\
  prev_landmarks Demo.after_first = Some (Demo.pose_at 0) /\
  List.length (Demo.pose_at 0) = List.length (Demo.pose_at 0.0078125) /\
  exists st',
    on_pose Demo.after_first (Demo.pose_at 0.0078125) = Return st' /\
    total_points st' = 33%nat /\
    prev_landmarks st' = Some (Demo.pose_at 0.0078125).
Proof.
  assert (H0 : estimator_pose (Demo.pose_at 0.0078125)) by reflexivity.
  assert (H1 : prev_landmarks Demo.after_first = Some (Demo.pose_at 0))
    by reflexivity.
  assert (H2 : List.length (Demo.pose_at 0)
               = List.length (Demo.pose_at 0.0078125)) by reflexivity.
  split; [exact H0|]. split; [exact H1|]. split; [exact H2|].
  destruct (@comparison_accumulates Reference.kernels Demo.after_first
              (Demo.pose_at 0.0078125) (Demo.pose_at 0) H0 H1 H2)
    as (_ & _ & Hstep).
  eexists. split; [exact Hstep|]. split; reflexivity.
Defined.

(** A pose of two landmarks after one of 33 is not compared. *)
Lemma missed_or_mismatched_witness :
  prev_landmarks Demo.after_first = Some (Demo.pose_at 0) /\
  List.length (Demo.pose_at 0) <> List.length Demo.short_pose /\
  exists st',
    on_pose Demo.after_first Demo.short_pose = Return st' /\
    total_points st' = 0%nat /\
    prev_landmarks st' = Some Demo.short_pose.
Proof.
  assert (H1 : prev_landmarks Demo.after_first = Some (Demo.pose_at 0))
    by reflexivity.
  assert (H2 : List.length (Demo.pose_at 0) <> List.length Demo.short_pose)
    by (vm_compute; lia).
  split; [exact H1|]. split; [exact H2|].
  destruct (@missed_or_mismatched Reference.kernels 15%Z tt Demo.after_first
              {| output_file := None; live := [] |}
              Demo.short_pose (Demo.pose_at 0)) as [_ Hskip].
  eexists. split; [exact (Hskip H1 H2)|]. split; reflexivity.
Defined.

(** The test's call, [target_fps=10], with an encoder that opens at
    positive rates: the frame rate returned is 10.0. *)
Lemma output_frame_rate_witness :
  exists w n fps om,
    process_video Demo.env (Some (Int 10)) None true
    = (w, Return (n, fps, om)) /\
    positive_rates_only Demo.env /\
    fps = spec_out_fps (Some (Int 10)) Demo.clip /\
    fps = 10%float.
Proof.
  pose proof (@output_frame_rate Reference.kernels Demo.env (Some (Int 10))
                None true) as T.
  assert (Hpos : positive_rates_only Demo.env)
    by (intros f Hf; exact Hf).
  do 4 eexists. split; [vm_compute; reflexivity|].
  split; [exact Hpos|].
  edestruct T as (cap & Hcap & Hrate & _); [vm_compute; reflexivity|].
  injection Hcap as <-. split; [exact (Hrate Hpos) | reflexivity].
Defined.

(** [max_frames=5] on the 15-frame clip: 5 frames are written. *)
Lemma max_frames_caps_witness :
  (0 < 5)%Z /\
  input Demo.env = Playable Demo.clip /\
  choose_fps None (float_or (CAP_PROP_FPS Demo.clip) 30) = Return 10%float /\
  writer_opens Demo.env 10 = true /\
  estimator Demo.env = None /\
  forallb benign (frames Demo.clip) = true /\
  exists w om,
    process_video Demo.env None (Some 5%Z) true
    = (w, Return (5%nat, 10%float, om)).
Proof.
  assert (H0 : (0 < 5)%Z) by lia.
  assert (H3 : forallb benign (frames Demo.clip) = true)
    by (vm_compute; reflexivity).
  split; [exact H0|]. split; [reflexivity|]. split; [reflexivity|].
  split; [reflexivity|]. split; [reflexivity|]. split; [exact H3|].
  destruct (@max_frames_caps Reference.kernels Demo.env None 5%Z true H0)
    as [_ Hrun].
  exact (Hrun Demo.clip 10%float eq_refl eq_refl eq_refl eq_refl H3).
Defined.

(** Nothing at [input_path]: [FileNotFoundError], and no output file. *)
Lemma missing_or_unreadable_input_witness :
  existing_readable (input Demo.missing_env) = false /\
  process_video Demo.missing_env None (Some 300%Z) true
  = ({| output_file := None; live := [] |}, Raise FileNotFoundError).
Proof.
  split; [reflexivity|].
  apply (@missing_or_unreadable_input Reference.kernels Demo.missing_env None
           (Some 300%Z) true).
  reflexivity.
Defined.

(** C8 as stated fails: a file that exists but cannot be read is not "an
    existing, readable file", yet [os.path.isfile] accepts it and the call
    raises the [IOError] of a decoder that does not open, not
    [FileNotFoundError]. *)
Lemma unreadable_input_raises_ioerror :
  existing_readable (input Demo.locked_env) = false /\
  raised (process_video Demo.locked_env None None true)
  = Some (IOError "Cannot open video") /\
  raised (process_video Demo.locked_env None None true)
  <> Some FileNotFoundError.
Proof. repeat split. discriminate. Qed.

(** [target_fps = 10**400] on the clip: [float] raises [OverflowError] at
    line 52 and the call ends with the decoder still held. *)
Lemma setup_failure_leaks_handles_witness :
  input Demo.env = Playable Demo.clip /\
  choose_fps (Some (Int (10 ^ 400)))
             (float_or (CAP_PROP_FPS Demo.clip) 30)
  = Raise OverflowError /\
  process_video Demo.env (Some (Int (10 ^ 400))) None true
  = ({| output_file := None; live := [Capture] |}, Raise OverflowError).
Proof.
  assert (H : choose_fps (Some (Int (10 ^ 400)))
                         (float_or (CAP_PROP_FPS Demo.clip) 30)
              = Raise OverflowError) by (vm_compute; reflexivity).
  split; [reflexivity|]. split; [exact H|].
  destruct (@setup_failure_leaks_handles Reference.kernels Demo.env Demo.clip
              (Some (Int (10 ^ 400))) None true eq_refl) as [Hleak _].
  exact (Hleak OverflowError H).
Defined.

(** ** The processed prefix of the source *)
Section Prefix.

Context {K : Kernels}.

Variable max_frames : option Z.
Variable input_frame_count : Z.

(** What [on_pose] and a frame without pose have in common: the counters
    of the frame loop are left alone and the pose counter moves by one for
    a pose. *)
Lemma after_inference (st st1 : Locals) (results : option Landmarks) :
  match results with
  | Some landmarks => on_pose st landmarks = Return st1
  | None => st1 = st
  end ->
  written st1 = written st /\
  frame_idx st1 = frame_idx st /\
  frames_with_pose st1
  = (frames_with_pose st
     + match results with Some _ => 1 | None => 0 end)%nat.
Proof.
  destruct results as [landmarks|]; intros H.
  - apply on_pose_inv in H. intuition lia.
  - subst st1. intuition lia.
Qed.

(** A loop that returns has processed a prefix of what the decoder had:
    the frames of the prefix are in the output file, in order, numbered from
    the frame counter on, and the pose counter has grown by the number of
    poses in the prefix. *)
Lemma frame_loop_prefix (stream : list frame_event) :
  forall (st st' : Locals) (w w' : World) (v : OutVideo),
    frame_loop max_frames input_frame_count stream st w = (w', Return st') ->
    output_file w = Some v ->
    exists k v',
      written st' = (written st + k)%nat /\
      (k <= List.length stream)%nat /\
      frames_with_pose st'
      = (frames_with_pose st
         + List.length (filter has_pose (firstn k stream)))%nat /\
      output_file w' = Some v' /\
      out_fps_meta v' = out_fps_meta v /\
      out_size v' = out_size v /\
      out_frames v'
      = out_frames v
        ++ annotate_from input_frame_count (frame_idx st) (firstn k stream).
Proof.
  induction stream as [|[e|pose sink] rest IH]; intros st st' w w' v.
  - simpl. intros H Hv. injection H as <- <-. exists 0%nat, v.
    simpl. rewrite app_nil_r. repeat split; auto; lia.
  - simpl. discriminate.
  - loop_cases Hcap Hframe.
    + intros H Hv. injection H as <- <-. exists 0%nat, v.
      simpl. rewrite app_nil_r. repeat split; auto; lia.
    + intros H Hv. apply process_frame_inv in Hframe.
      destruct Hframe as (results & st1 & -> & Hres & -> & ->).
      apply after_inference in Hres. simpl in Hres.
      destruct Hres as (Hwr & Hfi & Hfp).
      specialize (IH _ _ _ _
        {| out_fps_meta := out_fps_meta v; out_size := out_size v;
           out_frames := out_frames v
             ++ [{| label := (frame_idx st1, input_frame_count);
                    overlay := results |}] |} H).
      destruct IH as (k & v' & Hk & Hle & Hposes & Hv' & Hfps & Hsize & Hout).
      { unfold write_frame. simpl. rewrite Hv. reflexivity. }
      simpl in Hk, Hposes, Hout. exists (S k), v'.
      rewrite Hwr in Hk. rewrite Hfp in Hposes. rewrite Hfi in Hout.
      split; [lia|]. split; [simpl; lia|]. split; [|split; [exact Hv'|]].
      * rewrite Hposes. cbn [firstn filter].
        destruct results as [landmarks|]; simpl; lia.
      * split; [exact Hfps|]. split; [exact Hsize|].
        rewrite Hout, <- app_assoc. cbn [firstn annotate_from app].
        destruct results as [landmarks|]; reflexivity.
    + discriminate.
Qed.

(** A pose counted is a pose kept: after the loop [prev_landmarks] is set
    only if a pose was counted, and points were accumulated only if two
    were. *)
Lemma frame_loop_two_poses (stream : list frame_event) :
  forall (st st' : Locals) (w w' : World),
    frame_loop max_frames input_frame_count stream st w = (w', Return st') ->
    (prev_landmarks st <> None -> (1 <= frames_with_pose st)%nat) ->
    ((0 < total_points st)%nat -> (2 <= frames_with_pose st)%nat) ->
    (prev_landmarks st' <> None -> (1 <= frames_with_pose st')%nat) /\
    ((0 < total_points st')%nat -> (2 <= frames_with_pose st')%nat).
Proof.
  induction stream as [|[e|pose sink] rest IH]; intros st st' w w'.
  - simpl. intros H. injection H as _ <-. auto.
  - simpl. discriminate.
  - loop_cases Hcap Hframe.
    + intros H. injection H as _ <-. simpl. auto.
    + intros H H1 H2. apply process_frame_inv in Hframe.
      destruct Hframe as (results & st1 & _ & Hres & -> & ->).
      apply IH in H; [exact H| |]; simpl.
      * destruct results as [landmarks|].
        -- apply on_pose_inv in Hres. simpl in Hres. intros _. lia.
        -- subst st1. exact H1.
      * destruct results as [landmarks|].
        -- apply on_pose_inv in Hres. simpl in Hres.
           destruct Hres as (Hf & _ & _ & _ & Hcmp).
           unfold comparable in Hcmp.
           destruct (prev_landmarks st) as [p|] eqn:Hp.
           ++ assert (1 <= frames_with_pose st)%nat
                by (apply H1; discriminate).
              intros _. lia.
           ++ destruct Hcmp as (Ht & _). rewrite Ht. intros Hpos.
              apply H2 in Hpos. lia.
        -- subst st1. exact H2.
    + discriminate.
Qed.

(** The cap, once exceeded, stays exceeded: below an index at which it is
    not, it is not. *)
Lemma over_cap_below (i j : nat) :
  (i <= j)%nat -> over_cap max_frames j = false ->
  over_cap max_frames i = false.
Proof.
  unfold over_cap. destruct max_frames as [m|]; [|reflexivity].
  intros Hij. destruct (m =? 0)%Z; simpl; [reflexivity|].
  intros H. apply Z.ltb_ge in H. apply Z.ltb_ge. lia.
Qed.

(** Frames on which nothing raises, followed under the cap by an event
    that raises: the loop raises, with the frames before it written. *)
Lemma frame_loop_faulty (pre : list frame_event) (ev : frame_event)
    (post : list frame_event) (e : exn) :
  forallb benign pre = true -> faulty ev = Some e ->
  forall (st : Locals) (w : World) (v : OutVideo),
    over_cap max_frames (frame_idx st + S (List.length pre)) = false ->
    output_file w = Some v ->
    exists w' v',
      frame_loop max_frames input_frame_count (pre ++ ev :: post) st w
      = (w', Raise e) /\
      output_file w' = Some v' /\
      List.length (out_frames v')
      = (List.length (out_frames v) + List.length pre)%nat.
Proof.
  intros Hb Hev. induction pre as [|b pre IH]; intros st w v Hcap Hv.
  - simpl in Hcap. rewrite Nat.add_1_r in Hcap. exists w, v.
    split; [|split; [exact Hv | simpl; lia]].
    simpl app. destruct ev as [e0|[[landmarks|]|e0] [u|e1]];
      simpl in Hev; try discriminate;
      try (injection Hev as ->); cbn [frame_loop]; try reflexivity;
      change (frame_idx (next_frame st)) with (S (frame_idx st));
      rewrite Hcap; unfold process_frame; try reflexivity.
    destruct (28 <? landmark_count landmarks)%nat eqn:Hbig; [|discriminate].
    injection Hev as ->. apply Nat.ltb_lt in Hbig.
    destruct (@on_pose_ok K (next_frame st) landmarks Hbig) as [st1 ->].
    reflexivity.
  - simpl in Hb. apply andb_true_iff in Hb. destruct Hb as [Hb0 Hb].
    specialize (IH Hb). simpl app. simpl List.length in Hcap.
    assert (Hnow : over_cap max_frames (S (frame_idx st)) = false)
      by (eapply over_cap_below; [|exact Hcap]; lia).
    destruct b as [e0|[[landmarks|]|e0] [u|e1]]; try discriminate;
      cbn [frame_loop];
      change (frame_idx (next_frame st)) with (S (frame_idx st));
      rewrite Hnow; unfold process_frame.
    + simpl in Hb0. apply Nat.ltb_lt in Hb0.
      destruct (@on_pose_ok K (next_frame st) landmarks Hb0) as [st1 Hst1].
      rewrite Hst1. apply on_pose_inv in Hst1. simpl in Hst1.
      destruct Hst1 as (_ & _ & Hfi & _).
      edestruct IH as (w' & v' & Hrun & Hv' & Hlen);
        [| |exists w', v'; split; [exact Hrun|split; [exact Hv'|]]].
      * simpl. rewrite Hfi. rewrite <- Hcap. f_equal. lia.
      * unfold write_frame. simpl. rewrite Hv. reflexivity.
      * rewrite Hlen. simpl. rewrite length_app. simpl. lia.
    + edestruct IH as (w' & v' & Hrun & Hv' & Hlen);
        [| |exists w', v'; split; [exact Hrun|split; [exact Hv'|]]].
      * simpl. rewrite <- Hcap. f_equal. lia.
      * unfold write_frame. simpl. rewrite Hv. reflexivity.
      * rewrite Hlen. simpl. rewrite length_app. simpl. lia.
Qed.

End Prefix.

(** ** More on a call as a whole *)
Section Whole.

Context {K : Kernels}.

Lemma frame_loop_zero_cap (c : Z) (stream : list frame_event) :
  forall (st : Locals) (w : World),
    frame_loop (Some 0%Z) c stream st w = frame_loop None c stream st w.
Proof.
  induction stream as [|[e|pose sink] rest IH]; intros st w;
    try reflexivity.
  cbn [frame_loop]. change (over_cap (Some 0%Z) (frame_idx (next_frame st)))
    with false. cbn [over_cap].
  destruct (process_frame c pose sink (next_frame st) w) as [w1 [st2|e]];
    [apply IH | reflexivity].
Qed.

(** X1.  [max_frames=0] is falsy and caps nothing: the call does what it
    does without [max_frames]. *)
Theorem zero_cap_is_no_cap (env : Env) (target_fps : option number)
    (return_metrics : bool) :
  process_video env target_fps (Some 0%Z) return_metrics
  = process_video env target_fps None return_metrics.
Proof.
  unfold process_video.
  destruct (isfile (input env)); simpl; [|reflexivity].
  destruct (VideoCapture (input env)) as [cap|]; [|reflexivity].
  destruct (choose_fps target_fps (float_or (CAP_PROP_FPS cap) 30))
    as [fps|e]; [|reflexivity].
  destruct (writer_opens env fps); simpl; [|reflexivity].
  destruct (estimator env); [reflexivity|].
  rewrite frame_loop_zero_cap. reflexivity.
Qed.

(** X2.  A negative [max_frames] is truthy and exceeded by the first
    frame: when the set-up goes through ([float] returns the frame rate, the
    encoder opens at it, the estimator is created) and the first read does
    not raise, the call returns with no frame written, an output file
    without frames and metrics at their initial values. *)
Theorem negative_cap_writes_nothing (env : Env) (cap : Video)
    (target_fps : option number) (m : Z) (return_metrics : bool)
    (fps : float) :
  (m < 0)%Z ->
  input env = Playable cap ->
  choose_fps target_fps (float_or (CAP_PROP_FPS cap) 30) = Return fps ->
  writer_opens env fps = true -> estimator env = None ->
  (forall e rest, frames cap <> ReadRaises e :: rest) ->
  process_video env target_fps (Some m) return_metrics
  = ({| output_file :=
          Some {| out_fps_meta := fps;
                  out_size := (int_or (CAP_PROP_FRAME_WIDTH cap) 640,
                               int_or (CAP_PROP_FRAME_HEIGHT cap) 480);
                  out_frames := [] |};
        live := [] |},
     Return (0%nat, fps,
             if return_metrics then Some (still_metrics 0 0) else None)).
Proof.
  intros Hm Hin Hfps Hwr Hest Hread. unfold process_video.
  rewrite Hin. simpl. rewrite Hfps, Hwr, Hest. simpl.
  destruct (frames cap) as [|[e|pose sink] rest] eqn:Hf.
  - reflexivity.
  - exfalso. exact (Hread e rest eq_refl).
  - cbn [frame_loop].
    assert (Hcap : over_cap (Some m) (frame_idx (next_frame init_locals))
                   = true).
    { simpl. apply andb_true_iff. split.
      - apply negb_true_iff, Z.eqb_neq. lia.
      - apply Z.ltb_lt. lia. }
    rewrite Hcap. reflexivity.
Qed.

(** X3.  A call that returns has written no more frames than the source
    has, and all of them when [max_frames] is not given or zero. *)
Theorem written_within_source (env : Env) (target_fps : option number)
    (max_frames : option Z) (return_metrics : bool)
    (w : World) (n : nat) (fps : float) (om : option Metrics) :
  process_video env target_fps max_frames return_metrics
  = (w, Return (n, fps, om)) ->
  exists cap,
    VideoCapture (input env) = Some cap /\
    (n <= List.length (frames cap))%nat /\
    (max_frames = None \/ max_frames = Some 0%Z ->
     n = List.length (frames cap)).
Proof.
  intros H. apply process_video_returns in H.
  destruct H as (cap & w4 & st & Hcap & Hloop & _ & -> & _ & _).
  exists cap. split; [exact Hcap|]. split.
  - eapply frame_loop_prefix in Hloop; [|reflexivity].
    destruct Hloop as (k & v' & Hk & Hle & _). simpl in Hk. lia.
  - intros Hm. eapply frame_loop_uncapped in Hloop; [|exact Hm].
    exact Hloop.
Qed.

(** X4.  [frames_with_pose] is the number of frames with a detected pose
    among the frames written, which are the first frames of the source. *)
Theorem pose_count_is_poses_seen (env : Env) (target_fps : option number)
    (max_frames : option Z) (return_metrics : bool)
    (w : World) (n : nat) (fps : float) (m : Metrics) :
  process_video env target_fps max_frames return_metrics
  = (w, Return (n, fps, Some m)) ->
  exists cap,
    VideoCapture (input env) = Some cap /\
    m_frames_with_pose m
    = List.length (filter has_pose (firstn n (frames cap))).
Proof.
  intros H. apply process_video_returns in H.
  destruct H as (cap & w4 & st & Hcap & Hloop & _ & -> & _ & Hm).
  destruct return_metrics; [|discriminate]. injection Hm as ->.
  exists cap. split; [exact Hcap|].
  eapply frame_loop_prefix in Hloop; [|reflexivity].
  destruct Hloop as (k & v' & Hk & _ & Hp & _). simpl in Hk, Hp.
  subst k. unfold finalize.
  destruct (0 <? total_points st)%nat; exact Hp.
Qed.

(** X5.  After a call that returns, the file at [output_path] has the
    returned frame rate, the frame size of the source (640 by 480 where the
    source reports zero), and the first [written] frames of the source in
    order, each numbered from 1 over the frame count of the source and
    carrying the skeleton of the pose detected on it. *)
Theorem output_file_contents (env : Env) (target_fps : option number)
    (max_frames : option Z) (return_metrics : bool)
    (w : World) (n : nat) (fps : float) (om : option Metrics) :
  process_video env target_fps max_frames return_metrics
  = (w, Return (n, fps, om)) ->
  exists cap,
    VideoCapture (input env) = Some cap /\
    output_file w
    = Some {| out_fps_meta := fps;
              out_size := (int_or (CAP_PROP_FRAME_WIDTH cap) 640,
                           int_or (CAP_PROP_FRAME_HEIGHT cap) 480);
              out_frames :=
                annotate_from (int_or (CAP_PROP_FRAME_COUNT cap) 0) 0
                              (firstn n (frames cap)) |}.
Proof.
  intros H. apply process_video_returns in H.
  destruct H as (cap & w4 & st & Hcap & Hloop & -> & -> & -> & _).
  exists cap. split; [exact Hcap|].
  eapply frame_loop_prefix in Hloop; [|reflexivity].
  destruct Hloop as (k & v' & Hk & _ & _ & Hv' & Hfps & Hsize & Hout).
  simpl in Hk, Hfps, Hsize, Hout. subst k.
  unfold cleanup, release. simpl. rewrite Hv'.
  destruct v' as [f s fr]. simpl in *. subst. reflexivity.
Qed.

(** X6.  With at most one frame with a pose there is no movement to
    measure: [avg_movement_intensity] is [0.0] and [dominant_limb] is
    absent. *)
Theorem single_pose_no_movement (env : Env) (target_fps : option number)
    (max_frames : option Z) (return_metrics : bool)
    (w : World) (n : nat) (fps : float) (m : Metrics) :
  process_video env target_fps max_frames return_metrics
  = (w, Return (n, fps, Some m)) ->
  (m_frames_with_pose m <= 1)%nat ->
  avg_movement_intensity m = 0%float /\ dominant_limb m = None.
Proof.
  intros H. apply process_video_returns in H.
  destruct H as (cap & w4 & st & Hcap & Hloop & _ & _ & _ & Hm).
  destruct return_metrics; [|discriminate]. injection Hm as ->.
  apply frame_loop_two_poses in Hloop; simpl; try (intros; lia);
    [|intros Hn; exfalso; apply Hn; reflexivity].
  destruct Hloop as [_ Htwo]. unfold finalize.
  destruct (0 <? total_points st)%nat eqn:E; simpl; [|auto].
  apply Nat.ltb_lt in E. apply Htwo in E. intros Hle. lia.
Qed.

(** X7.  When the set-up goes through ([float] returns the frame rate,
    the encoder opens at it, the estimator is created) and frames on which
    nothing raises are followed, under the cap, by a read, an inference or a
    write that raises, the call raises that exception and returns no
    metrics; it holds no handle afterwards, and the file at [output_path] is
    left with the frames written before. *)
Theorem failure_leaves_truncated_output (env : Env) (cap : Video)
    (target_fps : option number) (max_frames : option Z)
    (return_metrics : bool) (fps : float)
    (pre : list frame_event) (ev : frame_event) (post : list frame_event)
    (e : exn) :
  input env = Playable cap ->
  choose_fps target_fps (float_or (CAP_PROP_FPS cap) 30) = Return fps ->
  writer_opens env fps = true -> estimator env = None ->
  frames cap = pre ++ ev :: post ->
  forallb benign pre = true -> faulty ev = Some e ->
  over_cap max_frames (S (List.length pre)) = false ->
  exists w v,
    process_video env target_fps max_frames return_metrics = (w, Raise e) /\
    output_file w = Some v /\
    List.length (out_frames v) = List.length pre /\
    live w = [].
Proof.
  intros Hin Hfps Hwr Hest Hframes Hb Hev Hcap.
  destruct (@frame_loop_faulty K max_frames
              (int_or (CAP_PROP_FRAME_COUNT cap) 0) pre ev post e Hb Hev
              init_locals (at_loop_entry env cap target_fps)
              {| out_fps_meta :=
                   chosen_rate target_fps (float_or (CAP_PROP_FPS cap) 30);
                 out_size := (int_or (CAP_PROP_FRAME_WIDTH cap) 640,
                              int_or (CAP_PROP_FRAME_HEIGHT cap) 480);
                 out_frames := [] |} Hcap eq_refl)
    as (w' & v' & Hrun & Hv' & Hlen).
  exists (cleanup w'), v'.
  pose proof (frame_loop_live _ _ _ _ _ Hrun) as Hlive.
  unfold process_video. rewrite Hin. simpl.
  rewrite Hfps, Hwr, Hest, Hframes. simpl.
  unfold at_loop_entry in Hrun. simpl in Hrun.
  rewrite <- (choose_fps_value _ _ Hfps) in Hrun. rewrite Hrun.
  split; [reflexivity|]. split; [exact Hv'|]. split; [exact Hlen|].
  unfold cleanup, release. simpl. rewrite Hlive. reflexivity.
Qed.

(** X13.  When nothing can raise in the set-up (neither [float] at line 52
    nor the constructor of the estimator), the call holds no handle when it
    ends, however it ends: with [FileNotFoundError], with a decoder or an
    encoder that does not open, with a return, or with an exception raised
    in the loop. *)
Theorem handles_released_after_set_up (env : Env)
    (target_fps : option number) (max_frames : option Z)
    (return_metrics : bool) :
  (forall cap e,
      input env = Playable cap ->
      choose_fps target_fps (float_or (CAP_PROP_FPS cap) 30) <> Raise e) ->
  estimator env = None ->
  live (fst (process_video env target_fps max_frames return_metrics)) = [].
Proof.
  intros Hfloat Hest. unfold process_video.
  destruct (input env) as [| | | |cap] eqn:Hin; simpl; try reflexivity.
  destruct (choose_fps target_fps (float_or (CAP_PROP_FPS cap) 30))
    as [fps|e] eqn:Hfps.
  - destruct (writer_opens env fps); simpl; [|reflexivity].
    rewrite Hest.
    match goal with
    | |- context [frame_loop ?a ?b ?c ?d ?e] =>
        destruct (frame_loop a b c d e) as [w4 r] eqn:Hloop
    end.
    apply frame_loop_live in Hloop. simpl in Hloop.
    assert (Hc : live (cleanup w4) = []).
    { unfold cleanup, release. simpl. rewrite Hloop. reflexivity. }
    destruct r as [st|e]; exact Hc.
  - exfalso. exact (Hfloat cap e eq_refl Hfps).
Qed.

End Whole.

(** ** The endpoints *)
Import Api.

(** The upload and the output of a request never share a name. *)
Lemma paths_differ (unique ext : string) :
  in_path unique ext <> out_path unique.
Proof.
  unfold in_path, out_path. induction unique as [|a unique IH]; simpl.
  - intros H. discriminate H.
  - intros H. injection H as H. exact (IH H).
Qed.

Lemma put_same (path : string) (f : entry) (store : Store) :
  put path f store path = Some f.
Proof. unfold put. rewrite String.eqb_refl. reflexivity. Qed.

Lemma put_other (path p : string) (f : entry) (store : Store) :
  p <> path -> put path f store p = store p.
Proof.
  intros H. unfold put. apply String.eqb_neq in H. rewrite H. reflexivity.
Qed.

(** After the [finally] block the upload is gone if it can be unlinked,
    and no other file is touched. *)
Lemma tidy_spec (host : Host) (path : string) (store : Store) :
  (unlink_succeeds host = true -> tidy host path store path = None) /\
  (forall p, p <> path -> tidy host path store p = store p).
Proof.
  unfold tidy, path_exists, unlink. split.
  - intros ->. rewrite andb_true_r.
    destruct (store path) eqn:E; [|exact E].
    rewrite String.eqb_refl. reflexivity.
  - intros p Hp. apply String.eqb_neq in Hp.
    destruct (match store path with Some _ => true | None => false end
              && unlink_succeeds host); [rewrite Hp|]; reflexivity.
Qed.

Lemma sync_other (unique p : string) (w : World) (store : Store) :
  p <> out_path unique -> sync unique w store p = store p.
Proof.
  intros H. unfold sync. destruct (output_file w); [|reflexivity].
  apply put_other. exact H.
Qed.

Section Service.

Context {W : Web} {K : Kernels}.

(** A call that returns, in figures: the frames in the output file, the
    frames counted in the metrics and, under a positive cap, the smaller of
    the cap and the frames of the source are one number. *)
Lemma process_video_figures (env : Env) (target_fps : option number)
    (max_frames : option Z) (return_metrics : bool)
    (w : World) (n : nat) (fps : float) (om : option Metrics) :
  process_video env target_fps max_frames return_metrics
  = (w, Return (n, fps, om)) ->
  exists cap v,
    input env = Playable cap /\
    writer_opens env fps = true /\
    estimator env = None /\
    output_file w = Some v /\
    List.length (out_frames v) = n /\
    (forall m, om = Some m -> frames_processed m = n) /\
    (forall mx, (0 < mx)%Z -> max_frames = Some mx ->
                Z.of_nat n = Z.min mx (Z.of_nat (List.length (frames cap)))).
Proof.
  intros H.
  pose proof (process_video_set_up _ _ _ _ H) as Hset.
  destruct Hset as (cap0 & Hin & _ & Hwr & Hest).
  apply process_video_returns in H.
  destruct H as (cap & w4 & st & Hcap & Hloop & -> & -> & _ & Hom).
  rewrite Hin in Hcap. injection Hcap as <-.
  pose proof Hloop as Hcount.
  eapply frame_loop_counts in Hcount; [|reflexivity].
  destruct Hcount as (_ & _ & _ & v & Hv & _ & _ & Hlen). simpl in Hlen.
  exists cap0, v. split; [exact Hin|]. split; [exact Hwr|].
  split; [exact Hest|].
  split; [exact Hv|]. split; [lia|]. split.
  - intros m Hm. rewrite Hm in Hom.
    destruct return_metrics; [|discriminate]. injection Hom as ->.
    unfold finalize. destruct (0 <? total_points st)%nat; reflexivity.
  - intros mx Hpos Hmx.
    eapply (@frame_loop_capped K max_frames) in Hloop;
      [|exact Hmx|exact Hpos|reflexivity|simpl; lia].
    exact Hloop.
Qed.

(** A source without a frame: the loop ends at once. *)
Lemma process_video_frameless (env : Env) (cap : Video)
    (target_fps : option number) (max_frames : option Z)
    (return_metrics : bool) :
  input env = Playable cap ->
  writer_opens env (chosen_rate target_fps (float_or (CAP_PROP_FPS cap) 30))
  = true ->
  estimator env = None -> frames cap = [] ->
  (forall e, choose_fps target_fps (float_or (CAP_PROP_FPS cap) 30)
             <> Raise e) ->
  let fps := chosen_rate target_fps (float_or (CAP_PROP_FPS cap) 30) in
  process_video env target_fps max_frames return_metrics
  = ({| output_file :=
          Some {| out_fps_meta := fps;
                  out_size := (int_or (CAP_PROP_FRAME_WIDTH cap) 640,
                               int_or (CAP_PROP_FRAME_HEIGHT cap) 480);
                  out_frames := [] |};
        live := [] |},
     Return (0%nat, fps,
             if return_metrics then Some (still_metrics 0 0) else None)).
Proof.
  intros Hin Hwr Hest Hf Hfloat fps. unfold process_video.
  rewrite Hin. simpl.
  destruct (choose_fps target_fps (float_or (CAP_PROP_FPS cap) 30))
    as [out_fps|e] eqn:Hfps; [|exfalso; exact (Hfloat e eq_refl)].
  apply choose_fps_value in Hfps. subst out_fps. fold fps.
  fold fps in Hwr. rewrite Hwr, Hest. simpl. rewrite Hf. reflexivity.
Qed.

(** Whatever [process_video] does, the store afterwards is the one it
    left, and the response is a success or a 500. *)
Lemma respond_spec (host : Host) (file : UploadFile) (unique : string)
    (store : Store) :
  fst (respond host file unique store)
  = sync unique
         (fst (process_video (env_of host file unique store)
                             None (Some 300%Z) true))
         store /\
  (status (snd (respond host file unique store)) = 200%nat \/
   status (snd (respond host file unique store)) = 500%nat).
Proof.
  unfold respond.
  destruct (process_video (env_of host file unique store)
                          None (Some 300%Z) true)
    as [w [[[n fps] om]|e]]; simpl; [|auto].
  destruct ((n =? 0)%nat || negb (path_exists (out_path unique)
                                    (sync unique w store))); [simpl; auto|].
  destruct om as [m|]; [|simpl; auto].
  destruct (json_render m); simpl; auto.
Qed.

(** X8.  [POST /analyze] answers 415 exactly when the lower-cased suffix
    of the file name is not one of the five allowed, and then nothing is
    saved and no video is processed: the store is as before. *)
Theorem unsupported_iff_415 (host : Host) (file : UploadFile)
    (unique : string) (store : Store) :
  let ext := suffix_lower (filename file) in
  (status (snd (analyze_video host file unique store)) = 415%nat
   <-> allowed ext = false) /\
  (allowed ext = false ->
   analyze_video host file unique store
   = (store, HTTPException 415 (Unsupported ext))).
Proof.
  intros ext. unfold analyze_video. fold ext.
  destruct (allowed ext) eqn:Hext; simpl.
  - split; [|discriminate]. split; [|discriminate].
    destruct (copy file) as [|created e]; simpl.
    + destruct (respond_spec host file unique
                  (put (in_path unique ext) (Uploaded (body file)) store))
        as [_ Hs].
      destruct (respond host file unique _) as [s r]. simpl in *.
      destruct Hs as [-> | ->]; discriminate.
    + discriminate.
  - split; [split; reflexivity | reflexivity].
Qed.

(** X9.  A success of [POST /analyze] comes from an upload that was saved
    and decoded and an encoder that opened; its metrics count between 1 and
    300 frames, its headers carry the metrics, and [GET /download] with the
    identifier it names serves the video produced, which has as many frames
    as the metrics say. *)
Theorem analyze_then_download (host : Host) (file : UploadFile)
    (unique : string) (store store' : Store)
    (message url : string) (m : Metrics) (h : Headers) :
  analyze_video host file unique store
  = (store', JSONResponse message url m h) ->
  url = ("/download/" ++ unique)%string /\
  copy file = Copied /\ encoder_opens host = true /\
  (exists cap, body file = Some cap) /\
  (1 <= frames_processed m <= 300)%nat /\
  X_Frames_Processed h = frames_processed m /\
  X_Frames_With_Pose h = m_frames_with_pose m /\
  X_Avg_Movement_Intensity h = avg_movement_intensity m /\
  X_Dominant_Limb h = dominant_limb m /\
  exists v,
    download_video unique store'
    = FileResponse (out_path unique) (Encoded v)
                   (unique ++ "_skeleton.mp4")%string /\
    List.length (out_frames v) = frames_processed m.
Proof.
  unfold analyze_video.
  set (ext := suffix_lower (filename file)).
  destruct (allowed ext); simpl; [|discriminate].
  destruct (copy file) as [|created e] eqn:Hcopy; [|discriminate].
  unfold respond.
  set (s1 := put (in_path unique ext) (Uploaded (body file)) store).
  destruct (process_video (env_of host file unique s1) None (Some 300%Z) true)
    as [w [[[n fps] om]|e]] eqn:Hcall; [|discriminate].
  destruct ((n =? 0)%nat || negb (path_exists (out_path unique)
                                    (sync unique w s1))) eqn:Hzero;
    [discriminate|].
  destruct om as [m0|]; [|discriminate].
  destruct (json_render m0); [discriminate|].
  intros H. injection H as <- <- <- <- <-. simpl.
  apply orb_false_iff in Hzero. destruct Hzero as [Hn _].
  apply Nat.eqb_neq in Hn.
  apply process_video_figures in Hcall.
  destruct Hcall as (cap & v & Hin & Hwr & _ & Hv & Hlen & Hm & Hcapd).
  specialize (Hm m0 eq_refl).
  specialize (Hcapd 300%Z ltac:(lia) eq_refl).
  simpl in Hin, Hwr.
  repeat split; auto; try lia.
  - destruct (body file) as [c|]; [eauto | discriminate Hin].
  - exists v. split; [|lia].
    unfold download_video.
    destruct (tidy_spec host (in_path unique ext) (sync unique w s1))
      as [_ Hkeep].
    rewrite Hkeep
      by (intros E; symmetry in E; exact (paths_differ _ _ E)).
    unfold sync. rewrite Hv, put_same. reflexivity.
Qed.

(** X10.  Past the check of the extension, and whatever the outcome, the
    upload is removed from [TMP_DIR] when it can be unlinked, and no file
    other than the upload and the output of this request is touched. *)
Theorem upload_removed_others_kept (host : Host) (file : UploadFile)
    (unique : string) (store : Store) :
  let ext := suffix_lower (filename file) in
  let store' := fst (analyze_video host file unique store) in
  allowed ext = true ->
  (unlink_succeeds host = true -> store' (in_path unique ext) = None) /\
  (forall p, p <> in_path unique ext -> p <> out_path unique ->
             store' p = store p).
Proof.
  intros ext store' Hext. subst store'. unfold analyze_video. fold ext.
  rewrite Hext. simpl.
  set (inp := in_path unique ext).
  destruct (match copy file with
            | Copied =>
                respond host file unique (put inp (Uploaded (body file)) store)
            | CopyRaises created e =>
                (if created then put inp (Uploaded None) store else store,
                 HTTPException 500 (Internal e))
            end) as [s1 r] eqn:Hs1.
  simpl. destruct (tidy_spec host inp s1) as [Hgone Hkeep].
  split; [exact Hgone|].
  intros p Hp Hq. rewrite Hkeep by exact Hp.
  destruct (copy file) as [|created e].
  - pose proof (respond_spec host file unique
                  (put inp (Uploaded (body file)) store)) as [Hst _].
    rewrite Hs1 in Hst. simpl in Hst. rewrite Hst.
    rewrite sync_other by exact Hq. apply put_other. exact Hp.
  - injection Hs1 as <- _.
    destruct created; [apply put_other; exact Hp | reflexivity].
Qed.

(** X11.  An upload that decodes to a video without a frame is answered
    500, "Processing produced no output.", although [process_video], with an
    encoder that opens and an estimator that is created, returns; the output
    file it created, without frames, stays in [TMP_DIR]. *)
Theorem frameless_upload_is_500 (host : Host) (file : UploadFile)
    (unique : string) (store : Store) (cap : Video) :
  allowed (suffix_lower (filename file)) = true ->
  copy file = Copied -> body file = Some cap -> frames cap = [] ->
  encoder_opens host = true -> estimator_raises host = None ->
  snd (analyze_video host file unique store) = HTTPException 500 NoOutput /\
  exists v,
    fst (analyze_video host file unique store) (out_path unique)
    = Some (Encoded v) /\
    out_frames v = [].
Proof.
  intros Hext Hcopy Hbody Hframes Hwr Hest. unfold analyze_video.
  rewrite Hext, Hcopy. cbn [negb].
  set (inp := in_path unique (suffix_lower (filename file))).
  set (s1 := put inp (Uploaded (body file)) store).
  assert (Hin : input (env_of host file unique s1) = Playable cap)
    by (unfold env_of; simpl; rewrite Hbody; reflexivity).
  pose proof (@process_video_frameless (env_of host file unique s1) cap
                None (Some 300%Z) true Hin Hwr Hest Hframes
                ltac:(intros e; discriminate)) as Hcall.
  unfold respond. rewrite Hcall. cbn [Nat.eqb orb fst snd].
  split; [reflexivity|].
  destruct (tidy_spec host inp
              (sync unique
                 {| output_file :=
                      Some {| out_fps_meta :=
                                chosen_rate None
                                  (float_or (CAP_PROP_FPS cap) 30);
                              out_size :=
                                (int_or (CAP_PROP_FRAME_WIDTH cap) 640,
                                 int_or (CAP_PROP_FRAME_HEIGHT cap) 480);
                              out_frames := [] |};
                    live := [] |} s1)) as [_ Hkeep].
  rewrite Hkeep by (intros E; symmetry in E; exact (paths_differ _ _ E)).
  unfold sync. cbn [output_file]. rewrite put_same.
  eexists. split; reflexivity.
Qed.

(** X12.  An upload with an allowed extension that is saved, decodes to a
    video with at least one frame on which nothing raises, with an encoder
    that opens, an estimator that is created and metrics that render, is
    answered with a success whose metrics count the smaller of 300 and the
    number of frames. *)
Theorem benign_upload_succeeds (host : Host) (file : UploadFile)
    (unique : string) (store : Store) (cap : Video) :
  allowed (suffix_lower (filename file)) = true ->
  copy file = Copied -> body file = Some cap ->
  frames cap <> [] -> forallb benign (frames cap) = true ->
  encoder_opens host = true -> estimator_raises host = None ->
  (forall m, json_render m = None) ->
  exists m h,
    snd (analyze_video host file unique store)
    = JSONResponse "Processing complete." ("/download/" ++ unique)%string m h /\
    Z.of_nat (frames_processed m)
    = Z.min 300 (Z.of_nat (List.length (frames cap))).
Proof.
  intros Hext Hcopy Hbody Hne Hb Hwr Hest Hjson. unfold analyze_video.
  rewrite Hext, Hcopy. simpl.
  set (s1 := put (in_path unique (suffix_lower (filename file)))
                 (Uploaded (body file)) store).
  assert (Hin : input (env_of host file unique s1) = Playable cap)
    by (unfold env_of; simpl; rewrite Hbody; reflexivity).
  destruct (@process_video_benign K (env_of host file unique s1) cap None
              (Some 300%Z) true (float_or (CAP_PROP_FPS cap) 30)
              Hin eq_refl Hwr Hest Hb) as (w4 & st & Hloop & Hcall).
  pose proof Hcall as Hfig. apply process_video_figures in Hfig.
  destruct Hfig as (cap' & v & Hin' & _ & _ & Hv & Hlen & Hm & Hcapd).
  rewrite Hin in Hin'. injection Hin' as <-.
  specialize (Hm _ eq_refl). specialize (Hcapd 300%Z ltac:(lia) eq_refl).
  unfold respond. rewrite Hcall.
  assert (Hpos : (written st =? 0)%nat = false).
  { apply Nat.eqb_neq. destruct (frames cap); [congruence|].
    simpl List.length in Hcapd. lia. }
  assert (Hex : path_exists (out_path unique) (sync unique (cleanup w4) s1)
                = true).
  { unfold path_exists, sync. rewrite Hv, put_same. reflexivity. }
  rewrite Hpos, Hex. simpl. rewrite Hjson. simpl.
  do 2 eexists. split; [reflexivity|]. rewrite Hm. exact Hcapd.
Qed.

End Service.

(** ** The further properties on the sample inputs *)

Lemma negative_cap_writes_nothing_witness :
  (-1 < 0)%Z /\
  input Demo.env = Playable Demo.clip /\
  choose_fps None (float_or (CAP_PROP_FPS Demo.clip) 30) = Return 10%float /\
  writer_opens Demo.env 10 = true /\
  estimator Demo.env = None /\
  (forall e rest, frames Demo.clip <> ReadRaises e :: rest) /\
  snd (process_video Demo.env None (Some (-1)%Z) true)
  = Return (0%nat, 10%float, Some (still_metrics 0 0)).
Proof.
  assert (H0 : (-1 < 0)%Z) by lia.
  assert (H3 : forall e rest, frames Demo.clip <> ReadRaises e :: rest)
    by (intros e rest H; vm_compute in H; discriminate H).
  split; [exact H0|]. split; [reflexivity|]. split; [reflexivity|].
  split; [reflexivity|]. split; [reflexivity|]. split; [exact H3|].
  rewrite (@negative_cap_writes_nothing Reference.kernels Demo.env Demo.clip
             None (-1)%Z true 10%float H0 eq_refl eq_refl eq_refl eq_refl H3).
  reflexivity.
Defined.

Lemma written_within_source_witness :
  exists w n fps om,
    process_video Demo.env None (Some 5%Z) true = (w, Return (n, fps, om)) /\
    exists cap,
      VideoCapture (input Demo.env) = Some cap /\
      (n <= List.length (frames cap))%nat /\
      (Some 5%Z = None \/ Some 5%Z = Some 0%Z ->
       n = List.length (frames cap)).
Proof.
  pose proof (@written_within_source Reference.kernels Demo.env None
                (Some 5%Z) true) as T.
  do 4 eexists. split; [|eapply T]; vm_compute; reflexivity.
Defined.

Lemma pose_count_is_poses_seen_witness :
  exists w n fps m,
    process_video Demo.env None (Some 5%Z) true
    = (w, Return (n, fps, Some m)) /\
    exists cap,
      VideoCapture (input Demo.env) = Some cap /\
      m_frames_with_pose m
      = List.length (filter has_pose (firstn n (frames cap))).
Proof.
  pose proof (@pose_count_is_poses_seen Reference.kernels Demo.env None
                (Some 5%Z) true) as T.
  do 4 eexists. split; [|eapply T]; vm_compute; reflexivity.
Defined.

Lemma output_file_contents_witness :
  exists w n fps om,
    process_video Samples.lonely_env (Some (Float 12.5)) None false
    = (w, Return (n, fps, om)) /\
    exists cap,
      VideoCapture (input Samples.lonely_env) = Some cap /\
      output_file w
      = Some {| out_fps_meta := fps;
                out_size := (int_or (CAP_PROP_FRAME_WIDTH cap) 640,
                             int_or (CAP_PROP_FRAME_HEIGHT cap) 480);
                out_frames :=
                  annotate_from (int_or (CAP_PROP_FRAME_COUNT cap) 0) 0
                                (firstn n (frames cap)) |}.
Proof.
  pose proof (@output_file_contents Reference.kernels Samples.lonely_env
                (Some (Float 12.5)) None false) as T.
  do 4 eexists. split; [|eapply T]; vm_compute; reflexivity.
Defined.

Lemma single_pose_no_movement_witness :
  exists w n fps m,
    process_video Samples.lonely_env None None true
    = (w, Return (n, fps, Some m)) /\
    (m_frames_with_pose m <= 1)%nat /\
    avg_movement_intensity m = 0%float /\ dominant_limb m = None.
Proof.
  pose proof (@single_pose_no_movement Reference.kernels Samples.lonely_env
                None None true) as T.
  do 4 eexists. split; [vm_compute; reflexivity|].
  assert (H : (1 <= 1)%nat) by lia.
  split; [exact H|]. eapply T; [vm_compute; reflexivity | exact H].
Defined.

Lemma failure_leaves_truncated_output_witness :
  input Samples.broken_env = Playable Samples.broken_clip /\
  choose_fps None (float_or (CAP_PROP_FPS Samples.broken_clip) 30)
  = Return 25%float /\
  writer_opens Samples.broken_env 25 = true /\
  estimator Samples.broken_env = None /\
  frames Samples.broken_clip
  = [Demo.seen (Some (Demo.pose_at 0)); Demo.seen None]
    ++ ReadRaises (Foreign "decode") :: [Demo.seen None] /\
  forallb benign [Demo.seen (Some (Demo.pose_at 0)); Demo.seen None] = true /\
  faulty (ReadRaises (Foreign "decode")) = Some (Foreign "decode") /\
  over_cap (Some 300%Z) 3 = false /\
  exists w v,
    process_video Samples.broken_env None (Some 300%Z) true
    = (w, Raise (Foreign "decode")) /\
    output_file w = Some v /\
    List.length (out_frames v) = 2%nat /\
    live w = [].
Proof.
  assert (H4 : forallb benign
                 [Demo.seen (Some (Demo.pose_at 0)); Demo.seen None] = true)
    by (vm_compute; reflexivity).
  split; [reflexivity|]. split; [reflexivity|]. split; [reflexivity|].
  split; [reflexivity|]. split; [reflexivity|].
  split; [exact H4|]. split; [reflexivity|]. split; [reflexivity|].
  exact (@failure_leaves_truncated_output Reference.kernels
           Samples.broken_env Samples.broken_clip None (Some 300%Z) true
           25%float
           [Demo.seen (Some (Demo.pose_at 0)); Demo.seen None]
           (ReadRaises (Foreign "decode")) [Demo.seen None]
           (Foreign "decode") eq_refl eq_refl eq_refl eq_refl eq_refl H4
           eq_refl eq_refl).
Defined.

(** The clip processed whole, or cut by a decoder that raises: no handle
    is held afterwards. *)
Lemma handles_released_after_set_up_witness :
  (forall cap e,
      input Samples.broken_env = Playable cap ->
      choose_fps None (float_or (CAP_PROP_FPS cap) 30) <> Raise e) /\
  estimator Samples.broken_env = None /\
  live (fst (process_video Samples.broken_env None None true)) = [].
Proof.
  assert (H1 : forall cap e,
             input Samples.broken_env = Playable cap ->
             choose_fps None (float_or (CAP_PROP_FPS cap) 30) <> Raise e)
    by (intros cap e _ H; discriminate H).
  split; [exact H1|]. split; [reflexivity|].
  exact (@handles_released_after_set_up Reference.kernels Samples.broken_env
           None None true H1 eq_refl).
Defined.

Lemma unsupported_iff_415_witness :
  allowed (suffix_lower (Web := sample_web) (filename notes_upload)) = false /\
  analyze_video (W := sample_web) sample_host notes_upload "ab12" empty_store
  = (empty_store, HTTPException 415 (Unsupported ".txt")).
Proof.
  assert (H : allowed (suffix_lower (Web := sample_web)
                         (filename notes_upload)) = false) by reflexivity.
  split; [exact H|].
  destruct (@unsupported_iff_415 sample_web Reference.kernels sample_host
              notes_upload "ab12"%string empty_store) as [_ T].
  exact (T H).
Defined.

Lemma analyze_then_download_witness :
  exists store' m h,
    analyze_video (W := sample_web) sample_host dance_upload "ab12" empty_store
    = (store', JSONResponse "Processing complete." "/download/ab12" m h) /\
    (1 <= frames_processed m <= 300)%nat /\
    exists v,
      download_video "ab12" store'
      = FileResponse (out_path "ab12") (Encoded v) "ab12_skeleton.mp4" /\
      List.length (out_frames v) = frames_processed m.
Proof.
  pose proof (@analyze_then_download sample_web Reference.kernels sample_host
                dance_upload "ab12"%string empty_store) as T.
  assert (Hr : exists m h,
             snd (analyze_video (W := sample_web) sample_host dance_upload
                                "ab12" empty_store)
             = JSONResponse "Processing complete." "/download/ab12" m h)
    by (vm_compute; do 2 eexists; reflexivity).
  destruct (analyze_video (W := sample_web) sample_host dance_upload "ab12"
                          empty_store) as [store' r].
  destruct Hr as (m & h & Hr). simpl in Hr. subst r.
  exists store', m, h. split; [reflexivity|].
  destruct (T _ _ _ _ _ eq_refl)
    as (_ & _ & _ & _ & Hn & _ & _ & _ & _ & Hv).
  split; [exact Hn | exact Hv].
Defined.

Lemma upload_removed_others_kept_witness :
  allowed (suffix_lower (Web := sample_web) (filename dance_upload)) = true /\
  unlink_succeeds sample_host = true /\
  fst (analyze_video (W := sample_web) sample_host dance_upload "ab12"
                     empty_store) (in_path "ab12" ".mp4") = None.
Proof.
  assert (H : allowed (suffix_lower (Web := sample_web)
                         (filename dance_upload)) = true) by reflexivity.
  split; [exact H|]. split; [reflexivity|].
  destruct (@upload_removed_others_kept sample_web Reference.kernels
              sample_host dance_upload "ab12"%string empty_store H)
    as [T _].
  exact (T eq_refl).
Defined.

Lemma frameless_upload_is_500_witness :
  allowed (suffix_lower (Web := sample_web) (filename blank_upload)) = true /\
  copy blank_upload = Copied /\ body blank_upload = Some blank_clip /\
  frames blank_clip = [] /\ encoder_opens sample_host = true /\
  estimator_raises sample_host = None /\
  snd (analyze_video (W := sample_web) sample_host blank_upload "ab12"
                     empty_store)
  = HTTPException 500 NoOutput.
Proof.
  assert (H : allowed (suffix_lower (Web := sample_web)
                         (filename blank_upload)) = true) by reflexivity.
  split; [exact H|]. repeat (split; [reflexivity|]).
  destruct (@frameless_upload_is_500 sample_web Reference.kernels sample_host
              blank_upload "ab12"%string empty_store blank_clip
              H eq_refl eq_refl eq_refl eq_refl eq_refl) as [T _].
  exact T.
Defined.

Lemma benign_upload_succeeds_witness :
  allowed (suffix_lower (Web := sample_web) (filename dance_upload)) = true /\
  copy dance_upload = Copied /\ body dance_upload = Some Demo.clip /\
  frames Demo.clip <> [] /\ forallb benign (frames Demo.clip) = true /\
  encoder_opens sample_host = true /\
  estimator_raises sample_host = None /\
  (forall m, json_render (Web := sample_web) m = None) /\
  exists m h,
    snd (analyze_video (W := sample_web) sample_host dance_upload "ab12"
                       empty_store)
    = JSONResponse "Processing complete." "/download/ab12" m h /\
    Z.of_nat (frames_processed m)
    = Z.min 300 (Z.of_nat (List.length (frames Demo.clip))).
Proof.
  assert (H1 : allowed (suffix_lower (Web := sample_web)
                          (filename dance_upload)) = true) by reflexivity.
  assert (H4 : frames Demo.clip <> [])
    by (intros H; vm_compute in H; discriminate H).
  assert (H5 : forallb benign (frames Demo.clip) = true)
    by (vm_compute; reflexivity).
  assert (H7 : forall m, json_render (Web := sample_web) m = None)
    by reflexivity.
  split; [exact H1|]. split; [reflexivity|]. split; [reflexivity|].
  split; [exact H4|]. split; [exact H5|]. split; [reflexivity|].
  split; [reflexivity|]. split; [exact H7|].
  exact (@benign_upload_succeeds sample_web Reference.kernels sample_host
           dance_upload "ab12"%string empty_store Demo.clip
           H1 eq_refl eq_refl H4 H5 eq_refl eq_refl H7).
Defined.
